(** * The voice-session engine of [components/InterviewRoom.tsx]

    A shallow embedding of the interview room's audio and transcript
    logic: the capture encoder ([scriptProcessor.onaudioprocess]), the
    playback scheduler and the turn assembler (both inside [onmessage]),
    the countdown effect and [handleEndInterview].

    Numbers.  [ctx.currentTime], [audioBuffer.duration], the microphone
    samples and [nextStartTimeRef.current] are JavaScript numbers with
    fractional values; they are binary64 floats here ([PrimFloat.float]).
    [timeLeft] and [Date.now()] only ever hold integers far below 2^53,
    on which the arithmetic of the source is exact; they are [Z]. *)

From Stdlib Require Import ZArith Lia FloatClass PrimFloat FloatOps SpecFloat.
From Stdlib Require Import Ascii String Sorting.Sorted.
From Stdlib Require Uint63.
From stdpp Require Import base gmap list strings pretty.

Local Open Scope Z_scope.

(** ** JavaScript primitives used by the component *)

Module JS.

(** [Math.max(a, b)]: NaN if either argument is NaN; [+0] counts as
    larger than [-0]; otherwise [b] when [a < b], else [a]. *)
Definition mathMax (a b : float) : float :=
  if (PrimFloat.is_nan a || PrimFloat.is_nan b)%bool then PrimFloat.nan
  else match PrimFloat.classify b, PrimFloat.classify a with
       | PZero, NZero => b
       | _, _ => if PrimFloat.ltb a b then b else a
       end.

(** The integer part of a number, rounding towards zero; [0] for NaN,
    the infinities and the zeros (the first steps of [ToInt16]). *)
Definition truncate (x : float) : Z :=
  match Prim2SF x with
  | S754_finite s m e =>
      let mag := Z.shiftl (Z.pos m) e in
      if s then - mag else mag
  | _ => 0
  end.

(** The last steps of [ToInt16]: reduction modulo 2^16, read as a
    signed 16-bit value. *)
Definition wrap16 (n : Z) : Z :=
  let int16bit := n mod 65536 in
  if 32768 <=? int16bit then int16bit - 65536 else int16bit.

(** [ToInt16], the conversion an [Int16Array] applies to a stored
    number. *)
Definition toInt16 (x : float) : Z := wrap16 (truncate x).

(** The two bytes an [Int16Array] element occupies in its buffer, as
    the [Uint8Array] view over [int16.buffer] shows them (low byte
    first: typed arrays have the platform's byte order). *)
Definition int16Bytes (v : Z) : list Z :=
  let u := v mod 65536 in [u mod 256; u / 256].

(** A string is truthy when it is not empty. *)
Definition truthy (s : string) : bool :=
  match s with EmptyString => false | String _ _ => true end.

(** [s += t] where [t] may be [undefined] (an optional field). *)
Definition appendText (s : string) (t : option string) : string :=
  s +:+ default "undefined" t.

End JS.

(** ** [encode] of [utils/audio-utils] *)

Module Base64.

Definition alphabet : string :=
  "ABCDEFGHIJKLMNOPQRSTUVWXYZabcdefghijklmnopqrstuvwxyz0123456789+/".

Definition sextet (n : Z) : ascii :=
  match String.get (Z.to_nat (n mod 64)) alphabet with
  | Some c => c
  | None => "="%char
  end.

(** Modelled from the spec: [encode] of [utils/audio-utils], which is
    imported by the component but is not among the sources.  The spec
    calls it the base64 framing of the frame's byte buffer; this is
    standard base64 with [=] padding over the bytes in order. *)
Fixpoint encode (bytes : list Z) : string :=
  match bytes with
  | [] => ""
  | [a] =>
      String (sextet (a / 4)) (String (sextet (a mod 4 * 16)) "==")
  | [a; b] =>
      String (sextet (a / 4))
        (String (sextet (a mod 4 * 16 + b / 16))
           (String (sextet (b mod 16 * 4)) "="))
  | a :: b :: c :: rest =>
      String (sextet (a / 4))
        (String (sextet (a mod 4 * 16 + b / 16))
           (String (sextet (b mod 16 * 4 + c / 64))
              (String (sextet c) (encode rest))))
  end.

End Base64.

(** ** Data *)

Inductive Speaker := AI | Candidate.

(** An entry of the [transcript] state. *)
Record TurnRecord := mkTurn {
  speaker : Speaker;
  text : string;
  timestamp : Z
}.

(** [InterviewSession] of [types.ts]. *)
Record InterviewSession := mkSession {
  startTime : Z;
  durationLimit : Z;
  transcriptOf : list TurnRecord;
  recordingUrl : string
}.

(** The [Blob] handed to [sendRealtimeInput]. *)
Record GeminiBlob := mkBlob {
  data : string;
  mimeType : string
}.

(** The [inputTranscription] / [outputTranscription] object of a
    message; its [text] field is optional. *)
Record Transcription := mkTranscription { deltaText : option string }.

(** What [onmessage] looks at in a [LiveServerMessage].  [inlineData] is
    present when [msg.serverContent?.modelTurn?.parts[0]?.inlineData?.data]
    is truthy; the payload is represented by the duration of the
    [AudioBuffer] that [decodeAudioData(decode(data), ctx, 24000, 1)]
    (of [utils/audio-utils], not among the sources) makes of it. *)
Record LiveServerMessage := mkMsg {
  inlineData : option float;
  inputTranscription : option Transcription;
  outputTranscription : option Transcription;
  turnComplete : bool;
  interrupted : bool
}.

(** One call [source.start(when)] on a buffer source of the given
    duration. *)
Record ScheduledSource := mkSource {
  src : nat;
  when : float;
  duration : float
}.

(** *** The component's state

    Playback: [nextStartTimeRef], [sourcesRef] and the [isAISpeaking]
    state, with the buffer sources created so far and the log of the
    [start] and [stop] calls made on them. *)
Record Playback := mkPlayback {
  nextStartTime : float;
  sources : gset nat;
  isAISpeaking : bool;
  created : nat;
  started : list ScheduledSource;
  stopped : gset nat
}.

(** Turns: [candidateBufferRef], [aiBufferRef], the two live captions,
    the [transcript] state and the number of [setTranscript] updaters
    React has queued and not yet run. *)
Record Turns := mkTurns {
  candidateBuffer : string;
  aiBuffer : string;
  currentCandidateInput : string;
  currentAIResponse : string;
  transcript : list TurnRecord;
  queued : nat
}.

(** Session: the [timeLeft] and [isActive] states, whether [onopen] has
    installed the script processor, whether [sessionRef.current] holds an
    open channel, whether the media recorder is recording, and the logs of
    the [sendRealtimeInput] and [onComplete] calls. *)
Record Session := mkSessionState {
  timeLeft : Z;
  isActive : bool;
  capturing : bool;
  channel : bool;
  recording : bool;
  sent : list GeminiBlob;
  completed : list InterviewSession
}.

Record Room := mkRoom {
  playback : Playback;
  turns : Turns;
  session : Session
}.

(** The state of a freshly mounted component before [startSession]. *)
Definition mounted : Room :=
  mkRoom (mkPlayback 0%float ∅ false 0 [] ∅)
         (mkTurns "" "" "" "" [] 0)
         (mkSessionState (25 * 60) false false false false [] []).

(** ** Playback scheduler *)

(** The audio branch of [onmessage] (lines 240-256), at output-clock
    reading [now], for a payload decoded to a buffer of duration [d]:
    [setIsAISpeaking(true)], the baseline is raised to the clock, a new
    buffer source is started at the baseline, the baseline advances by the
    duration and the source joins the set.  [audioContextsRef.current] is
    assigned before [connect] is called, so the test [if (ctx)] succeeds
    in every callback.  This is the branch when the decode resolves and
    no other handler runs while it is awaited; its two halves are
    [beginAudio] and [finishAudio] below. *)
Definition schedule (now d : float) (p : Playback) : Playback :=
  let start := JS.mathMax (nextStartTime p) now in
  let source := created p in
  mkPlayback (PrimFloat.add start d)
             ({[ source ]} ∪ sources p)
             true
             (S source)
             (started p ++ [mkSource source start d])
             (stopped p).

(** The interrupted branch (lines 277-282): every source of the set is
    stopped, the set is cleared, the baseline is reset and
    [setIsAISpeaking(false)]. *)
Definition flush (p : Playback) : Playback :=
  mkPlayback 0%float ∅ false (created p) (started p)
             (stopped p ∪ sources p).

(** The ['ended'] listener of a buffer source (lines 249-252). *)
Definition ended (source : nat) (p : Playback) : Playback :=
  let rest := sources p ∖ {[ source ]} in
  mkPlayback (nextStartTime p) rest
             (if decide (size rest = 0%nat) then false else isAISpeaking p)
             (created p) (started p) (stopped p).

(** ** Turn assembler *)

(** Lines 258-261. *)
Definition inputDelta (t : Transcription) (u : Turns) : Turns :=
  let buffer := JS.appendText (candidateBuffer u) (deltaText t) in
  mkTurns buffer (aiBuffer u) buffer (currentAIResponse u)
          (transcript u) (queued u).

(** Lines 262-265. *)
Definition outputDelta (t : Transcription) (u : Turns) : Turns :=
  let buffer := JS.appendText (aiBuffer u) (deltaText t) in
  mkTurns (candidateBuffer u) buffer (currentCandidateInput u) buffer
          (transcript u) (queued u).

(** The function passed to [setTranscript] (lines 268-272), run while the
    two refs hold [cand] and [ai]; [tC] and [tA] are the readings of
    [Date.now()] for the candidate's and the agent's record. *)
Definition appendTurn (cand ai : string) (tC tA : Z)
    (prev : list TurnRecord) : list TurnRecord :=
  prev
  ++ (if JS.truthy cand then [mkTurn Candidate cand tC] else [])
  ++ (if JS.truthy ai then [mkTurn AI ai tA] else []).

(** What the handler of one message reads from its environment: the
    output context's clock, and for a [setTranscript] call whether React
    computes the update during the call and the two readings of
    [Date.now()] it would then take.  React computes a functional update
    during the call only when the component has no update pending;
    otherwise it keeps the function and runs it when it next renders the
    component. *)
Record MsgEnv := mkMsgEnv {
  currentTime : float;
  eager : bool;
  dateNowCandidate : Z;
  dateNowAI : Z
}.

(** [setTranscript(prev => ...)]: the function reads the two refs when it
    runs, not when it is passed. *)
Definition setTranscript (e : MsgEnv) (u : Turns) : Turns :=
  if (eager e && (queued u =? 0)%nat)%bool
  then mkTurns (candidateBuffer u) (aiBuffer u)
               (currentCandidateInput u) (currentAIResponse u)
               (appendTurn (candidateBuffer u) (aiBuffer u)
                           (dateNowCandidate e) (dateNowAI e) (transcript u))
               (queued u)
  else mkTurns (candidateBuffer u) (aiBuffer u)
               (currentCandidateInput u) (currentAIResponse u)
               (transcript u) (S (queued u)).

(** The turn-complete branch (lines 266-276). *)
Definition commitTurn (e : MsgEnv) (u : Turns) : Turns :=
  let u1 :=
    if (JS.truthy (candidateBuffer u) || JS.truthy (aiBuffer u))%bool
    then setTranscript e u else u in
  mkTurns "" "" "" "" (transcript u1) (queued u1).

(** React runs the oldest queued [setTranscript] function while rendering;
    [tC] and [tA] are the readings of [Date.now()] at that time.  A
    render that runs several queued functions is as many [Render]
    events. *)
Definition runUpdater (tC tA : Z) (u : Turns) : Turns :=
  match queued u with
  | O => u
  | S n =>
      mkTurns (candidateBuffer u) (aiBuffer u)
              (currentCandidateInput u) (currentAIResponse u)
              (appendTurn (candidateBuffer u) (aiBuffer u) tC tA
                          (transcript u))
              n
  end.

(** ** Message handler *)

(** [onmessage] (lines 238-283).  The branches run in the order of the
    source; the messages of a channel are handled one after the other. *)
Definition onmessage (e : MsgEnv) (msg : LiveServerMessage) (r : Room)
    : Room :=
  let p1 := match inlineData msg with
            | Some d => schedule (currentTime e) d (playback r)
            | None => playback r
            end in
  let u1 := match inputTranscription msg with
            | Some t => inputDelta t (turns r)
            | None => turns r
            end in
  let u2 := match outputTranscription msg with
            | Some t => outputDelta t u1
            | None => u1
            end in
  let u3 := if turnComplete msg then commitTurn e u2 else u2 in
  let p2 := if interrupted msg then flush p1 else p1 in
  mkRoom p2 u3 (session r).

(** ** Capture encoder *)

(** [int16[i] = inputData[i] * 32768] (line 228). *)
Definition convertSample (sample : float) : Z :=
  JS.toInt16 (PrimFloat.mul sample 32768%float).

(** The bytes of [new Uint8Array(int16.buffer)] for a frame. *)
Definition frameBytes (inputData : list float) : list Z :=
  flat_map (fun sample => JS.int16Bytes (convertSample sample)) inputData.

(** The [pcmBlob] of lines 229-232. *)
Definition pcmBlob (inputData : list float) : GeminiBlob :=
  mkBlob (Base64.encode (frameBytes inputData)) "audio/pcm;rate=16000".

(** [scriptProcessor.onaudioprocess] (lines 225-234): the frame is
    converted, encoded and handed to [sendRealtimeInput]. *)
Definition onaudioprocess (inputData : list float) (r : Room) : Room :=
  let s := session r in
  mkRoom (playback r) (turns r)
         (mkSessionState (timeLeft s) (isActive s) (capturing s) (channel s)
                         (recording s) (sent s ++ [pcmBlob inputData])
                         (completed s)).

(** ** Session controller *)

(** [startSession] (lines 174-217) up to the call of [connect]: the media
    recorder is created and started.  The two audio contexts are created
    here as well, before any callback of the channel can run. *)
Definition startSession (r : Room) : Room :=
  let s := session r in
  mkRoom (playback r) (turns r)
         (mkSessionState (timeLeft s) (isActive s) (capturing s) (channel s)
                         true (sent s) (completed s)).

(** [onopen] (lines 219-237): [setIsActive(true)] and the script processor
    is created and connected.  The promise of [connect] resolves right
    after this callback, so [sessionRef.current] (line 288) is taken to be
    set with it.  Every opening creates a processor of its own and none
    is ever disconnected; [capturing] tells that one is installed, which
    gives the frames handed over in the runs with one opening. *)
Definition onopen (r : Room) : Room :=
  let s := session r in
  mkRoom (playback r) (turns r)
         (mkSessionState (timeLeft s) true true true (recording s) (sent s)
                         (completed s)).

(** [onclose] (line 285). *)
Definition onclose (r : Room) : Room :=
  let s := session r in
  mkRoom (playback r) (turns r)
         (mkSessionState (timeLeft s) false (capturing s) false
                         (recording s) (sent s) (completed s)).

(** What [handleEndInterview] meets in its environment: whether
    [sessionRef.current.close()] throws, the reading of [Date.now()] and
    the URL that [URL.createObjectURL] returns. *)
Record EndEnv := mkEndEnv {
  closeThrows : bool;
  dateNow : Z;
  objectUrl : string
}.

(** [handleEndInterview] (lines 153-172). *)
Definition handleEndInterview (e : EndEnv) (r : Room) : Room :=
  let s := session r in
  let channel' := if channel s then closeThrows e else false in
  let url := if recording s then objectUrl e else "" in
  let report :=
    mkSession (dateNow e - (25 * 60 - timeLeft s) * 1000)
              (25 * 60)
              (transcript (turns r))
              url in
  mkRoom (playback r) (turns r)
         (mkSessionState (timeLeft s) false (capturing s) channel' false
                         (sent s) (completed s ++ [report])).

(** The countdown effect (lines 141-151) for given [isActive] and
    [timeLeft]. *)
Inductive TimerAction := ArmInterval | EndInterview | NoAction.

Definition countdownEffect (active : bool) (left : Z) : TimerAction :=
  if (active && (0 <? left))%bool then ArmInterval
  else if ((left =? 0) && active)%bool then EndInterview
  else NoAction.

(** The effect as it runs after a render. *)
Definition runEffect (e : EndEnv) (r : Room) : Room :=
  match countdownEffect (isActive (session r)) (timeLeft (session r)) with
  | EndInterview => handleEndInterview e r
  | _ => r
  end.

(** The interval armed by the effect fires: [setTimeLeft(prev => prev - 1)],
    and the effect runs again on the new [timeLeft], with the
    [handleEndInterview] of that render. *)
Definition tick (e : EndEnv) (r : Room) : Room :=
  let s := session r in
  match countdownEffect (isActive s) (timeLeft s) with
  | ArmInterval =>
      runEffect e
        (mkRoom (playback r) (turns r)
                (mkSessionState (timeLeft s - 1) (isActive s) (capturing s)
                                (channel s) (recording s) (sent s)
                                (completed s)))
  | _ => r
  end.

(** The Stop Session button, which is rendered only while [isActive]. *)
Definition stopSession (e : EndEnv) (r : Room) : Room :=
  if isActive (session r) then handleEndInterview e r else r.

(** ** The component as an event-driven machine *)

Inductive Event :=
| StartClick
| Opened
| Message (e : MsgEnv) (msg : LiveServerMessage)
| Render (tC tA : Z)
| SourceEnded (source : nat)
| AudioProcess (inputData : list float)
| Tick (e : EndEnv)
| StopClick (e : EndEnv)
| ChannelClosed.

Definition step (r : Room) (ev : Event) : Room :=
  match ev with
  | StartClick => startSession r
  | Opened => onopen r
  | Message e msg => onmessage e msg r
  | Render tC tA => mkRoom (playback r) (runUpdater tC tA (turns r)) (session r)
  | SourceEnded source => mkRoom (ended source (playback r)) (turns r) (session r)
  | AudioProcess inputData =>
      if capturing (session r) then onaudioprocess inputData r else r
  | Tick e => tick e r
  | StopClick e => stopSession e r
  | ChannelClosed => onclose r
  end.

Definition run (r : Room) (evs : list Event) : Room := foldl step r evs.

(** The session is in its Open phase exactly while [isActive] holds. *)
Definition phaseOpen (r : Room) : bool := isActive (session r).

(** ** Vocabulary of the properties *)

(** The readings of [Date.now()] that the handling of an event may take,
    in the order in which it takes them. *)
Definition readings (ev : Event) : list Z :=
  match ev with
  | Message e _ => [dateNowCandidate e; dateNowAI e]
  | Render tC tA => [tC; tA]
  | Tick e => [dateNow e]
  | StopClick e => [dateNow e]
  | _ => []
  end.

(** A transcription delta of one of the two speakers, and the message
    that carries it. *)
Inductive Delta :=
| CandidateDelta (t : string)
| AgentDelta (t : string).

Definition deltaMessage (d : Delta) : LiveServerMessage :=
  match d with
  | CandidateDelta t =>
      mkMsg None (Some (mkTranscription (Some t))) None false false
  | AgentDelta t =>
      mkMsg None None (Some (mkTranscription (Some t))) false false
  end.

Definition deltaEvent (d : MsgEnv * Delta) : Event :=
  Message (fst d) (deltaMessage (snd d)).

(** A render in which React runs a queued updater, given by the two
    readings of [Date.now()] taken in it. *)
Definition renderEvent (t : Z * Z) : Event := Render (fst t) (snd t).

(** A message that carries the turn-complete signal and nothing else. *)
Definition turnCompleteMessage : LiveServerMessage :=
  mkMsg None None None true false.

(** The deltas of one speaker, concatenated in arrival order. *)
Fixpoint spoken (who : Speaker) (ds : list (MsgEnv * Delta)) : string :=
  match ds with
  | [] => ""
  | (_, CandidateDelta t) :: ds' =>
      match who with
      | Candidate => t +:+ spoken who ds'
      | AI => spoken who ds'
      end
  | (_, AgentDelta t) :: ds' =>
      match who with
      | AI => t +:+ spoken who ds'
      | Candidate => spoken who ds'
      end
  end.





(** What a clipping guard would store instead: the value clamped to the
    signed 16-bit range.  The source has no such guard; this definition
    is only compared with [convertSample]. *)
Definition clamp16 (n : Z) : Z := Z.max (-32768) (Z.min 32767 n).

(** ** Further vocabulary *)

(** The frames for which [onaudioprocess] runs during a list of events:
    those the microphone delivers once [onopen] has installed the script
    processor ([installed] tells whether it already is at the start). *)
Fixpoint capturedFrames (installed : bool) (evs : list Event)
    : list (list float) :=
  match evs with
  | [] => []
  | Opened :: evs' => capturedFrames true evs'
  | AudioProcess inputData :: evs' =>
      if installed then inputData :: capturedFrames installed evs'
      else capturedFrames installed evs'
  | _ :: evs' => capturedFrames installed evs'
  end.

(** ** The countdown display *)

(** [toString().padStart(2, '0')] on the text of a number. *)
Definition padStart2 (s : string) : string :=
  match s with
  | EmptyString => "00"
  | String c EmptyString => String "0" (String c EmptyString)
  | _ => s
  end.

(** [formatTime] (lines 292-296).  [seconds] is the integer [timeLeft]:
    [Math.floor(seconds / 60)] is the floor quotient, [seconds % 60] the
    remainder with the sign of [seconds], and a number is written in
    decimal. *)
Definition formatTime (seconds : Z) : string :=
  let mins := seconds `div` 60 in
  let secs := Z.rem seconds 60 in
  pretty mins +:+ ":" +:+ padStart2 (pretty secs).

(** ** The setup form ([components/SetupView.tsx])

    [trim] removes the white space and line terminators of ECMAScript,
    some of which lie outside Latin-1, so the texts of the form are
    sequences of UTF-16 code units here. *)

Module Setup.

(** The code units that [String.prototype.trim] strips. *)
Definition isWhiteSpace (c : Z) : bool :=
  (c =? 9) || (c =? 10) || (c =? 11) || (c =? 12) || (c =? 13) ||
  (c =? 32) || (c =? 160) || (c =? 5760) ||
  ((8192 <=? c) && (c <=? 8202)) ||
  (c =? 8232) || (c =? 8233) || (c =? 8239) || (c =? 8287) ||
  (c =? 12288) || (c =? 65279).

Fixpoint trimStart (s : list Z) : list Z :=
  match s with
  | [] => []
  | c :: s' => if isWhiteSpace c then trimStart s' else s
  end.

Definition trimEnd (s : list Z) : list Z :=
  reverse (trimStart (reverse s)).

Definition trim (s : list Z) : list Z := trimEnd (trimStart s).

(** [s.split(sep)] for a separator of one code unit. *)
Fixpoint split (sep : Z) (s : list Z) : list (list Z) :=
  match s with
  | [] => [[]]
  | c :: s' =>
      if c =? sep then [] :: split sep s'
      else match split sep s' with
           | w :: ws => (c :: w) :: ws
           | [] => [[c]]
           end
  end.

(** [items.join(sep)]. *)
Fixpoint join (sep : list Z) (items : list (list Z)) : list Z :=
  match items with
  | [] => []
  | [w] => w
  | w :: rest => w ++ sep ++ join sep rest
  end.

(** A string is truthy when it is not empty. *)
Definition truthy (s : list Z) : bool :=
  match s with [] => false | _ :: _ => true end.

(** [ResumeData] of [types.ts]. *)
Record ResumeData := mkResume {
  text : list Z;
  skills : list (list Z);
  projects : list (list Z)
}.

(** [field.split(',').map(s => s.trim()).filter(s => s)] (lines 22-23). *)
Definition commaList (field : list Z) : list (list Z) :=
  filter (fun w => truthy w = true) (trim <$> split 44 field).

(** [handleSubmit] (lines 17-25): the argument of the [onStart] call, if
    there is one. *)
Definition handleSubmit (resumeText skillsField projectsField : list Z)
    : option ResumeData :=
  if truthy (trim resumeText)
  then Some (mkResume resumeText (commaList skillsField)
                      (commaList projectsField))
  else None.

(** [resumeData.skills.join(', ')], as the system instruction of
    [startSession] interpolates it ([components/InterviewRoom.tsx],
    line 206). *)
Definition skillsLine (data : ResumeData) : list Z :=
  join [44; 32] (skills data).

(** A list entry as [handleSubmit] makes them: not empty, without a comma
    and without white space at either end. *)
Definition entry (w : list Z) : Prop :=
  w <> [] /\ (44 ∉ w) /\
  (forall c, head w = Some c -> isWhiteSpace c = false) /\
  (forall c, last w = Some c -> isWhiteSpace c = false).

End Setup.

(** ** The application shell ([App.tsx]) *)

Inductive AppState := SETUP | INTERVIEWING | REVIEW.

Record App := mkApp {
  currentState : AppState;
  resumeData : option Setup.ResumeData;
  lastSession : option InterviewSession
}.

(** The state of the three [useState] cells at the first render. *)
Definition initialApp : App := mkApp SETUP None None.

Definition handleStartInterview (data : Setup.ResumeData) (a : App) : App :=
  mkApp INTERVIEWING (Some data) (lastSession a).

Definition handleCompleteInterview (s : InterviewSession) (a : App) : App :=
  mkApp REVIEW (resumeData a) (Some s).

Definition handleReset (a : App) : App := mkApp SETUP None None.

(** What the [main] element holds: each of the three conditional
    children that is rendered. *)
Inductive View :=
| SetupViewOf
| InterviewRoomOf (data : Setup.ResumeData)
| ReviewViewOf (s : InterviewSession).

Definition mainContent (a : App) : list View :=
  (match currentState a with SETUP => [SetupViewOf] | _ => [] end)
  ++ (match currentState a, resumeData a with
      | INTERVIEWING, Some data => [InterviewRoomOf data]
      | _, _ => []
      end)
  ++ (match currentState a, lastSession a with
      | REVIEW, Some s => [ReviewViewOf s]
      | _, _ => []
      end).

(** The calls the children make: [onStart], [onComplete], [onReset]. *)
Inductive AppEvent :=
| Start (data : Setup.ResumeData)
| Complete (s : InterviewSession)
| Reset.

Definition appStep (a : App) (ev : AppEvent) : App :=
  match ev with
  | Start data => handleStartInterview data a
  | Complete s => handleCompleteInterview s a
  | Reset => handleReset a
  end.

Definition appRun (a : App) (evs : list AppEvent) : App := foldl appStep a evs.

(** ** The scores of the report ([components/ReviewView.tsx]) *)

(** [Math.min(a, b)]: NaN if either argument is NaN; [-0] counts as
    smaller than [+0]; otherwise [b] when [b < a], else [a]. *)
Definition mathMin (a b : float) : float :=
  if (PrimFloat.is_nan a || PrimFloat.is_nan b)%bool then PrimFloat.nan
  else match PrimFloat.classify b, PrimFloat.classify a with
       | NZero, PZero => b
       | _, _ => if PrimFloat.ltb b a then b else a
       end.

(** A count as a JavaScript number. *)
Definition number (n : nat) : float :=
  PrimFloat.of_uint63 (Uint63.of_Z (Z.of_nat n)).

#[global] Instance Speaker_eq_dec : EqDecision Speaker.
Proof. solve_decision. Defined.

(** Line 11. *)
Definition candidateTurns (transcript : list TurnRecord) : list TurnRecord :=
  filter (fun t => speaker t = Candidate) transcript.

(** Lines 15-17.  [String.length] counts the bytes of a text; it is the
    [length] of the JavaScript string for texts of ASCII characters. *)
Definition avgLength (transcript : list TurnRecord) : float :=
  let turnCount := length (candidateTurns transcript) in
  let totalChars :=
    foldl (fun acc t => (acc + String.length (text t))%nat) 0%nat
          (candidateTurns transcript) in
  if (0 <? turnCount)%nat
  then PrimFloat.div (number totalChars) (number turnCount)
  else 0%float.

(** The values that lines 19-21 clamp, for the value [random] that
    [Math.random()] returns. *)
Definition technicalRaw (transcript : list TurnRecord) (random : float)
    : float :=
  PrimFloat.add
    (PrimFloat.mul (PrimFloat.div (avgLength transcript) 150%float) 8%float)
    (PrimFloat.mul random 2%float).

Definition communicationRaw (transcript : list TurnRecord) (random : float)
    : float :=
  PrimFloat.add
    (PrimFloat.mul
       (PrimFloat.div (number (length (candidateTurns transcript))) 10%float)
       7%float)
    (PrimFloat.mul random 3%float).

Definition clarityRaw (random : float) : float :=
  PrimFloat.add 5%float (PrimFloat.mul random 5%float).

(** Line 19. *)
Definition technicalDepth (transcript : list TurnRecord) (random : float)
    : float :=
  mathMin 10%float (JS.mathMax 2%float (technicalRaw transcript random)).

(** Line 20. *)
Definition communication (transcript : list TurnRecord) (random : float)
    : float :=
  mathMin 10%float (JS.mathMax 3%float (communicationRaw transcript random)).

(** Line 21. *)
Definition clarity (random : float) : float :=
  mathMin 10%float (clarityRaw random).

(** ** The handler of a message, seen at its [await]

    [schedule] above is the audio branch of a handler that runs without
    another event in between.  Its two halves are the code before and the
    code after [await decodeAudioData] (line 245). *)

(** Lines 240-244: [setIsAISpeaking(true)] and the baseline is raised to
    the clock. *)
Definition beginAudio (now : float) (p : Playback) : Playback :=
  mkPlayback (JS.mathMax (nextStartTime p) now) (sources p) true
             (created p) (started p) (stopped p).

(** Lines 246-255, for a buffer of duration [d]: a new source is started
    at the baseline, the baseline advances and the source joins the
    set. *)
Definition finishAudio (d : float) (p : Playback) : Playback :=
  let source := created p in
  mkPlayback (PrimFloat.add (nextStartTime p) d)
             ({[ source ]} ∪ sources p)
             (isAISpeaking p)
             (S source)
             (started p ++ [mkSource source (nextStartTime p) d])
             (stopped p).

(** What the synchronous pieces of the handlers do to the playback
    state. *)
Inductive PlaybackOp :=
| Begin (now : float)
| Finish (d : float)
| Flush
| Ended (source : nat).

Definition playbackOp (p : Playback) (op : PlaybackOp) : Playback :=
  match op with
  | Begin now => beginAudio now p
  | Finish d => finishAudio d p
  | Flush => flush p
  | Ended source => ended source p
  end.

(** The sequences in which every audio branch runs from its first line
    to its last with nothing in between: each [Begin] is followed at once
    by its [Finish] (the decode succeeds and no other handler runs while
    it is awaited). *)
Inductive unbroken : list PlaybackOp -> Prop :=
| unbroken_nil : unbroken []
| unbroken_audio (now d : float) (ops : list PlaybackOp) :
    unbroken ops -> unbroken (Begin now :: Finish d :: ops)
| unbroken_flush (ops : list PlaybackOp) :
    unbroken ops -> unbroken (Flush :: ops)
| unbroken_ended (source : nat) (ops : list PlaybackOp) :
    unbroken ops -> unbroken (Ended source :: ops).

(** The playback state of a freshly mounted component. *)
Definition silent : Playback := playback mounted.

(** The pieces that the handling of an event of [step] consists of: an
    audio branch there runs from its first line to its last. *)
Definition playbackOps (ev : Event) : list PlaybackOp :=
  match ev with
  | Message e msg =>
      match inlineData msg with
      | Some d => [Begin (currentTime e); Finish d]
      | None => []
      end
      ++ (if interrupted msg then [Flush] else [])
  | SourceEnded source => [Ended source]
  | _ => []
  end.

(** ** A message as it arrives *)

Module Wire.





End Wire.

(** ** Samples on a grid *)

(** The sample [j / 65536], an exact binary64 value for the [j] used
    here. *)
Definition sampleAt (j : Z) : float :=
  let magnitude := PrimFloat.of_uint63 (Uint63.of_Z (Z.abs j)) in
  PrimFloat.div (if j <? 0 then PrimFloat.opp magnitude else magnitude)
                65536%float.

(** Whether the value stored for the sample [j / 65536] is [j / 2],
    rounded towards zero and reduced modulo 2^16. *)
Definition storedAsExpected (j : Z) : bool :=
  convertSample (sampleAt j) =? JS.wrap16 (Z.quot j 2).

Definition gridStep (st : Z * bool) : Z * bool :=
  (fst st + 1, snd st && storedAsExpected (fst st)).

(** The frames that a list of events delivers. *)
Definition framesOf (evs : list Event) : list (list float) :=
  omap (fun ev => match ev with
                  | AudioProcess inputData => Some inputData
                  | _ => None
                  end) evs.

(** * Properties *)

Lemma run_cons (r : Room) (ev : Event) (evs : list Event) :
  run r (ev :: evs) = run (step r ev) evs.
Proof. reflexivity. Qed.

Lemma run_app (r : Room) (evs1 evs2 : list Event) :
  run r (evs1 ++ evs2) = run (run r evs1) evs2.
Proof.
  revert r. induction evs1 as [|ev evs1 IH]; intros r; simpl; [done|].
  apply IH.
Qed.

(** Case analysis on what the countdown effect, the stop button and the
    script processor do in a step. *)
Ltac controller_cases :=
  unfold tick, runEffect, stopSession;
  repeat match goal with
         | |- context [countdownEffect ?a ?l] =>
             destruct (countdownEffect a l)
         | |- context [if isActive ?s then _ else _] =>
             destruct (isActive s)
         | |- context [if capturing ?s then _ else _] =>
             destruct (capturing s) eqn:?
         end;
  simpl.

(** ** Capture encoder *)

Example encode_three_bytes : Base64.encode [77; 97; 110] = "TWFu".
Proof. reflexivity. Qed.

Example encode_two_bytes : Base64.encode [77; 97] = "TWE=".
Proof. reflexivity. Qed.

Example encode_one_byte : Base64.encode [77] = "TQ==".
Proof. reflexivity. Qed.

Lemma wrap16_formula (n : Z) :
  JS.wrap16 n = n - 65536 * ((n + 32768) / 65536).
Proof.
  unfold JS.wrap16; cbv zeta.
  destruct (Z.leb_spec 32768 (n mod 65536)); Z.div_mod_to_equations; lia.
Qed.

Lemma wrap16_range (n : Z) : -32768 <= JS.wrap16 n <= 32767.
Proof.
  unfold JS.wrap16; cbv zeta.
  destruct (Z.leb_spec 32768 (n mod 65536)); Z.div_mod_to_equations; lia.
Qed.

Lemma wrap16_id_iff (n : Z) : JS.wrap16 n = n <-> -32768 <= n <= 32767.
Proof.
  split.
  - intros <-. apply wrap16_range.
  - intros Hn. rewrite wrap16_formula.
    assert ((n + 32768) / 65536 = 0) as -> by (apply Z.div_small; lia).
    lia.
Qed.

Lemma wrap16_above (n : Z) :
  32767 < n <= 98303 -> JS.wrap16 n = n - 65536.
Proof.
  intros Hn. rewrite wrap16_formula.
  assert ((n + 32768) / 65536 = 1) as ->; [|lia].
  symmetry. apply (Z.div_unique _ _ 1 (n - 32768)); lia.
Qed.

Lemma int16Bytes_spec (v : Z) :
  exists lo hi,
    JS.int16Bytes v = [lo; hi] /\ 0 <= lo < 256 /\ 0 <= hi < 256 /\
    lo + 256 * hi = v mod 65536.
Proof.
  exists ((v mod 65536) mod 256), ((v mod 65536) / 256).
  unfold JS.int16Bytes; cbv zeta.
  repeat split; Z.div_mod_to_equations; lia.
Qed.

Lemma frameBytes_length (inputData : list float) :
  length (frameBytes inputData) = (2 * length inputData)%nat.
Proof.
  unfold frameBytes. induction inputData as [|x l IH]; simpl; [done|].
  rewrite IH. lia.
Qed.

Example sampleAt_one : sampleAt 65536 = 1%float.
Proof. reflexivity. Qed.

Example sampleAt_one_and_a_half : sampleAt 98304 = 1.5%float.
Proof. reflexivity. Qed.

Example sampleAt_minus_a_quarter : sampleAt (-16384) = (-0.25)%float.
Proof. reflexivity. Qed.

Lemma gridStep_iter (n : positive) (j : Z) (b : bool) :
  fst (Pos.iter gridStep (j, b) n) = j + Z.pos n /\
  (snd (Pos.iter gridStep (j, b) n) = true ->
   b = true /\
   forall k : Z, j <= k < j + Z.pos n -> storedAsExpected k = true).
Proof.
  induction n as [|n [IHfst IHsnd]] using Pos.peano_ind.
  - simpl. split; [done|]. intros [Hb Hj]%andb_true_iff.
    split; [done|]. intros k Hk. by replace k with j by lia.
  - rewrite Pos.iter_succ. unfold gridStep at 1 3. simpl.
    rewrite IHfst. split; [lia|].
    intros [Hb Hj]%andb_true_iff. destruct (IHsnd Hb) as [Hb' Hall].
    split; [done|]. intros k Hk.
    destruct (decide (k = j + Z.pos n)) as [->|Hne]; [done|].
    apply Hall. lia.
Qed.

Lemma samples_on_the_grid (j : Z) :
  -131072 <= j <= 131072 ->
  convertSample (sampleAt j) = JS.wrap16 (Z.quot j 2).
Proof.
  intros Hj.
  assert (Hgrid : snd (Pos.iter gridStep (-131072, true) 262145) = true)
    by (vm_compute; reflexivity).
  destruct (gridStep_iter 262145 (-131072) true) as [_ Hall].
  destruct (Hall Hgrid) as [_ Hok].
  apply Z.eqb_eq. apply (Hok j). lia.
Qed.

Lemma truncate_finite (x : float) (s : bool) (m : positive) (e : Z) :
  Prim2SF x = S754_finite s m e ->
  JS.truncate x =
  let numerator := if s then Z.neg m else Z.pos m in
  if 0 <=? e then numerator * 2 ^ e else Z.quot numerator (2 ^ (- e)).
Proof.
  intros Hx. unfold JS.truncate. rewrite Hx. cbv zeta.
  destruct (Z.leb_spec 0 e).
  - rewrite Z.shiftl_mul_pow2 by lia. destruct s; lia.
  - rewrite Z.shiftl_div_pow2 by lia.
    assert (Hpow : 0 < 2 ^ (- e)) by (apply Z.pow_pos_nonneg; lia).
    destruct s.
    + change (Z.neg m) with (- Z.pos m).
      rewrite Z.quot_opp_l by lia. rewrite Z.quot_div_nonneg by lia. done.
    + by rewrite Z.quot_div_nonneg by lia.
Qed.

Lemma truncate_not_finite (x : float) :
  (forall s m e, Prim2SF x <> S754_finite s m e) -> JS.truncate x = 0.
Proof.
  intros Hx. unfold JS.truncate.
  destruct (Prim2SF x) as [| | |s m e]; try done. by destruct (Hx s m e).
Qed.

(** C10: a sample of exactly 1.0 is scaled to 32768, one above the largest
    signed 16-bit value, and the [Int16Array] stores -32768 for it, where
    a clipping guard would have stored 32767.  In general the stored value
    is the product, rounded towards zero, reduced modulo 2^16 into
    [-32768, 32767]: for every sample [j / 65536] between -2 and 2 it is
    [j / 2] rounded towards zero and so reduced (1.5 is stored as -16384);
    for every sample whose product is the finite number [m * 2^e] with
    sign [s] it is that number rounded towards zero and so reduced, and 0
    when the product is not finite; the reduction leaves exactly the
    values of the range unchanged. *)
Theorem C10_full_scale_sample_wraps :
  JS.truncate (PrimFloat.mul 1%float 32768%float) = 32768 /\
  convertSample 1%float = -32768 /\
  clamp16 (JS.truncate (PrimFloat.mul 1%float 32768%float)) = 32767 /\
  (forall j : Z,
      -131072 <= j <= 131072 ->
      convertSample (sampleAt j) = JS.wrap16 (Z.quot j 2)) /\
  (forall (sample : float) (s : bool) (m : positive) (e : Z),
      Prim2SF (PrimFloat.mul sample 32768%float) = S754_finite s m e ->
      convertSample sample =
      JS.wrap16
        (if 0 <=? e
         then (if s then Z.neg m else Z.pos m) * 2 ^ e
         else Z.quot (if s then Z.neg m else Z.pos m) (2 ^ (- e)))) /\
  (forall sample : float,
      (forall s m e,
          Prim2SF (PrimFloat.mul sample 32768%float) <> S754_finite s m e) ->
      convertSample sample = 0) /\
  (forall n : Z,
      JS.wrap16 n = n - 65536 * ((n + 32768) / 65536) /\
      -32768 <= JS.wrap16 n <= 32767 /\
      (JS.wrap16 n = n <-> -32768 <= n <= 32767) /\
      (32767 < n <= 98303 -> JS.wrap16 n = n - 65536)).
Proof.
  split; [vm_compute; reflexivity|].
  split; [vm_compute; reflexivity|].
  split; [vm_compute; reflexivity|].
  split; [exact samples_on_the_grid|].
  split.
  { intros sample s m e Hp. unfold convertSample, JS.toInt16.
    by rewrite (truncate_finite _ _ _ _ Hp). }
  split.
  { intros sample Hp. unfold convertSample, JS.toInt16.
    by rewrite (truncate_not_finite _ Hp). }
  intros n.
  split; [apply wrap16_formula|].
  split; [apply wrap16_range|].
  split; [apply wrap16_id_iff|apply wrap16_above].
Qed.

Lemma C10_witness : convertSample 1.5%float = -16384.
Proof.
  destruct C10_full_scale_sample_wraps as (_ & _ & _ & Hgrid & _).
  apply (Hgrid 98304). lia.
Defined.

Lemma frameBytes_lookup (inputData : list float) (i : nat) (sample : float) :
  inputData !! i = Some sample ->
  exists lo hi,
    frameBytes inputData !! (2 * i)%nat = Some lo /\
    frameBytes inputData !! (2 * i + 1)%nat = Some hi /\
    JS.int16Bytes (convertSample sample) = [lo; hi].
Proof.
  revert i. induction inputData as [|x l IH]; intros i Hi; [done|].
  destruct i as [|i]; simpl in Hi.
  - injection Hi as ->.
    exists ((convertSample sample mod 65536) mod 256),
           ((convertSample sample mod 65536) / 256).
    done.
  - destruct (IH i Hi) as (lo & hi & Hlo & Hhi & Hb).
    exists lo, hi. split_and!; [| |done].
    + replace (2 * S i)%nat with (S (S (2 * i))) by lia. exact Hlo.
    + replace (2 * S i + 1)%nat with (S (S (2 * i + 1))) by lia. exact Hhi.
Qed.

(** Once [onopen] has run the script processor exists: in every state the
    component reaches, an active session is a capturing one. *)
Lemma step_active_capturing (r : Room) (ev : Event) :
  (isActive (session r) = true -> capturing (session r) = true) ->
  isActive (session (step r ev)) = true ->
  capturing (session (step r ev)) = true.
Proof.
  intros Hr. destruct ev as [ | |e msg|tC tA|source|inputData|e|e| ]; simpl;
    try done.
  - destruct (capturing (session r)) eqn:Hc; simpl; [done|].
    rewrite Hc. exact Hr.
  - unfold tick, runEffect.
    destruct (countdownEffect (isActive (session r)) (timeLeft (session r)));
      simpl; try exact Hr.
    destruct (countdownEffect _ _); simpl; try exact Hr; done.
  - unfold stopSession.
    destruct (isActive (session r)) eqn:Ha; simpl; [done|].
    rewrite Ha. done.
Qed.

Lemma run_active_capturing (evs : list Event) (r : Room) :
  (isActive (session r) = true -> capturing (session r) = true) ->
  isActive (session (run r evs)) = true ->
  capturing (session (run r evs)) = true.
Proof.
  revert r. induction evs as [|ev evs IH]; intros r Hr; simpl; [done|].
  apply IH. apply step_active_capturing, Hr.
Qed.

(** C7: for a frame captured while the session is Open, exactly one message
    is handed to the channel at once; its [mimeType] is
    ["audio/pcm;rate=16000"] and its [data] is the base64 text of the
    frame's bytes, two per sample, low byte first, holding the sample
    times 32768, truncated and reduced modulo 2^16 (no clamping); nothing
    else of the state changes, so no frame is kept. *)
Theorem C7_open_frame_is_converted_and_forwarded
    (evs : list Event) (inputData : list float) :
  let r := run mounted evs in
  let r' := step r (AudioProcess inputData) in
  phaseOpen r = true ->
  sent (session r') =
    sent (session r)
    ++ [mkBlob (Base64.encode (frameBytes inputData)) "audio/pcm;rate=16000"] /\
  length (frameBytes inputData) = (2 * length inputData)%nat /\
  (forall (i : nat) (sample : float),
      inputData !! i = Some sample ->
      exists lo hi,
        frameBytes inputData !! (2 * i)%nat = Some lo /\
        frameBytes inputData !! (2 * i + 1)%nat = Some hi /\
        0 <= lo < 256 /\ 0 <= hi < 256 /\
        lo + 256 * hi =
          JS.wrap16 (JS.truncate (PrimFloat.mul sample 32768%float))
          mod 65536) /\
  playback r' = playback r /\ turns r' = turns r /\
  timeLeft (session r') = timeLeft (session r) /\
  isActive (session r') = isActive (session r) /\
  completed (session r') = completed (session r).
Proof.
  intros r r' Hopen.
  assert (Hcap : capturing (session r) = true).
  { apply run_active_capturing; [done|exact Hopen]. }
  subst r'. simpl. rewrite Hcap. simpl.
  split_and!; try done.
  - apply frameBytes_length.
  - intros i sample Hi.
    destruct (frameBytes_lookup _ _ _ Hi) as (lo & hi & Hlo & Hhi & Hb).
    destruct (int16Bytes_spec (convertSample sample))
      as (lo' & hi' & Hb' & Hlo' & Hhi' & Hsum).
    rewrite Hb in Hb'. injection Hb' as <- <-.
    exists lo, hi. split_and!; try done; lia.
Qed.

Lemma C7_witness :
  sent (session (step (run mounted [Opened]) (AudioProcess [1%float; 0.5%float])))
  = [mkBlob "AIAAQA==" "audio/pcm;rate=16000"].
Proof.
  pose proof (C7_open_frame_is_converted_and_forwarded
                [Opened] [1%float; 0.5%float] eq_refl) as (H & _).
  vm_compute in H. vm_compute. exact H.
Defined.

(** ** Frames and the session phase *)

Lemma step_capturing (r : Room) (ev : Event) :
  capturing (session (step r ev)) =
  match ev with Opened => true | _ => capturing (session r) end.
Proof.
  destruct ev; simpl; controller_cases; done.
Qed.

Lemma step_sent (r : Room) (ev : Event) :
  sent (session (step r ev)) =
  match ev with
  | AudioProcess inputData =>
      if capturing (session r)
      then sent (session r) ++ [pcmBlob inputData]
      else sent (session r)
  | _ => sent (session r)
  end.
Proof.
  destruct ev; simpl; controller_cases; done.
Qed.

Lemma run_capturing_stays (evs : list Event) (r : Room) :
  capturing (session r) = true -> capturing (session (run r evs)) = true.
Proof.
  revert r. induction evs as [|ev evs IH]; intros r Hr; simpl; [done|].
  apply IH. rewrite step_capturing. destruct ev; done.
Qed.

Lemma run_capturing_after_open (evs : list Event) (r : Room) :
  Opened ∈ evs -> capturing (session (run r evs)) = true.
Proof.
  revert r. induction evs as [|ev evs IH]; intros r Hin; simpl.
  - by apply elem_of_nil in Hin.
  - apply elem_of_cons in Hin as [<-|Hin]; [|by apply IH].
    by apply run_capturing_stays.
Qed.

Lemma run_before_open (evs : list Event) (r : Room) :
  Opened ∉ evs -> capturing (session r) = false ->
  capturing (session (run r evs)) = false /\
  sent (session (run r evs)) = sent (session r).
Proof.
  revert r. induction evs as [|ev evs IH]; intros r Hnot Hr; simpl; [done|].
  apply not_elem_of_cons in Hnot as [Hev Hnot].
  destruct (IH (step r ev) Hnot) as [Hc Hs].
  - rewrite step_capturing. destruct ev; done.
  - split; [done|]. rewrite Hs, step_sent, Hr. destruct ev; done.
Qed.

(** C4, counterexample: the session is opened and then stopped, so it is
    no longer Open, and the next captured frame is still handed to
    [sendRealtimeInput]. *)
Lemma C4_frame_after_stop_is_sent :
  ~ (forall (evs : list Event) (inputData : list float),
       phaseOpen (run mounted evs) = false ->
       sent (session (step (run mounted evs) (AudioProcess inputData))) =
       sent (session (run mounted evs))).
Proof.
  intros H.
  specialize (H [Opened; StopClick (mkEndEnv false 0 "")] [0.5%float] eq_refl).
  vm_compute in H. discriminate H.
Qed.

(** C4, as the code has it: before the channel's opened acknowledgment no
    script processor exists, so a frame of the microphone changes nothing
    and nothing has been sent; from the acknowledgment on, every captured
    frame is handed to [sendRealtimeInput], whatever the phase of the
    session is then. *)
Theorem C4_frames_are_sent_from_the_opening_onwards
    (evs : list Event) (inputData : list float) :
  let r := run mounted evs in
  (Opened ∉ evs ->
     sent (session r) = [] /\ step r (AudioProcess inputData) = r) /\
  (Opened ∈ evs ->
     sent (session (step r (AudioProcess inputData))) =
     sent (session r) ++ [pcmBlob inputData]).
Proof.
  intros r. split.
  - intros Hnot.
    destruct (run_before_open evs mounted Hnot eq_refl) as [Hc Hs].
    split; [exact Hs|]. simpl. fold r. unfold r at 1. rewrite Hc. done.
  - intros Hin. rewrite step_sent.
    unfold r. rewrite (run_capturing_after_open evs mounted Hin). done.
Qed.

Lemma C4_witness :
  sent (session (step (run mounted [Opened; ChannelClosed])
                      (AudioProcess [0.5%float]))) =
  [mkBlob "AEA=" "audio/pcm;rate=16000"] /\
  step (run mounted [AudioProcess [0.5%float]]) (AudioProcess [0.5%float]) =
  run mounted [AudioProcess [0.5%float]].
Proof.
  split.
  - apply (C4_frames_are_sent_from_the_opening_onwards
             [Opened; ChannelClosed] [0.5%float]).
    apply list_elem_of_here.
  - apply (C4_frames_are_sent_from_the_opening_onwards
             [AudioProcess [0.5%float]] [0.5%float]).
    intros Hin. apply list_elem_of_singleton in Hin. discriminate Hin.
Defined.

(** ** Countdown and teardown *)

Lemma tick_counts_down (e : EndEnv) (r : Room) :
  isActive (session r) = true -> 1 < timeLeft (session r) ->
  isActive (session (tick e r)) = true /\
  timeLeft (session (tick e r)) = timeLeft (session r) - 1 /\
  completed (session (tick e r)) = completed (session r) /\
  recording (session (tick e r)) = recording (session r) /\
  turns (tick e r) = turns r.
Proof.
  intros Ha Ht. unfold tick, runEffect, countdownEffect. rewrite Ha. simpl.
  destruct (Z.ltb_spec 0 (timeLeft (session r))); [|lia]. simpl.
  destruct (Z.ltb_spec 0 (timeLeft (session r) - 1)); [|lia].
  simpl. done.
Qed.

Lemma tick_reaches_zero (e : EndEnv) (r : Room) :
  isActive (session r) = true -> timeLeft (session r) = 1 ->
  completed (session (tick e r)) =
    completed (session r)
    ++ [mkSession (dateNow e - 1500 * 1000) 1500 (transcript (turns r))
                  (if recording (session r) then objectUrl e else "")] /\
  isActive (session (tick e r)) = false.
Proof.
  intros Ha Ht. unfold tick, runEffect, countdownEffect. rewrite Ha, Ht.
  simpl. rewrite ?Ha, ?Ht. simpl. done.
Qed.

Lemma ticks_count_down (envs : list EndEnv) (r : Room) :
  isActive (session r) = true ->
  Z.of_nat (length envs) < timeLeft (session r) ->
  isActive (session (run r (map Tick envs))) = true /\
  timeLeft (session (run r (map Tick envs))) =
    timeLeft (session r) - Z.of_nat (length envs) /\
  completed (session (run r (map Tick envs))) = completed (session r) /\
  recording (session (run r (map Tick envs))) = recording (session r) /\
  turns (run r (map Tick envs)) = turns r.
Proof.
  revert r. induction envs as [|e envs IH]; intros r Ha Ht; simpl in *.
  - split_and!; try done. lia.
  - destruct (tick_counts_down e r Ha) as (Ha' & Ht' & Hc' & Hr' & Hu');
      [lia|].
    destruct (IH (tick e r) Ha') as (? & ? & ? & ? & ?); [lia|].
    split_and!; try congruence. lia.
Qed.

Lemma step_after_teardown (r : Room) (ev : Event) :
  ev <> Opened -> isActive (session r) = false ->
  isActive (session (step r ev)) = false /\
  completed (session (step r ev)) = completed (session r).
Proof.
  intros Hev Ha.
  destruct ev as [ | |e msg|tC tA|source|inputData|e|e| ]; simpl; try done.
  - destruct (capturing (session r)); simpl; done.
  - unfold tick, countdownEffect. rewrite Ha. simpl.
    rewrite andb_false_r. done.
  - unfold stopSession. rewrite Ha. done.
Qed.

Lemma run_after_teardown (evs : list Event) (r : Room) :
  Opened ∉ evs -> isActive (session r) = false ->
  completed (session (run r evs)) = completed (session r).
Proof.
  revert r. induction evs as [|ev evs IH]; intros r Hnot Ha; simpl; [done|].
  apply not_elem_of_cons in Hnot as [Hev Hnot].
  destruct (step_after_teardown r ev (not_eq_sym Hev) Ha) as [Ha' Hc'].
  rewrite IH; done.
Qed.

(** C5: the record that teardown hands to [onComplete] has
    [durationLimit] 1500 and [startTime] equal to the clock reading at
    teardown minus 1000 ms for each second the countdown has lost; no
    reading taken when the channel opened enters it: a session that is
    stopped after [k] ticks reports the teardown reading minus
    [k * 1000], whenever it was opened. *)
Theorem C5_start_time_is_computed_from_the_countdown
    (e : EndEnv) (r : Room) :
  timeLeft (session mounted) = 1500 /\
  (exists report,
      completed (session (handleEndInterview e r)) =
        completed (session r) ++ [report] /\
      durationLimit report = 1500 /\
      startTime report =
        dateNow e - (durationLimit report - timeLeft (session r)) * 1000) /\
  (forall ticks : list EndEnv,
      Z.of_nat (length ticks) < 1500 ->
      exists report,
        completed (session
          (run mounted
             (StartClick :: Opened :: map Tick ticks ++ [StopClick e]))) =
          [report] /\
        durationLimit report = 1500 /\
        startTime report = dateNow e - Z.of_nat (length ticks) * 1000).
Proof.
  split; [done|]. split.
  - eexists. split; [reflexivity|]. simpl. done.
  - intros ticks Hk. rewrite !run_cons, run_app.
    set (r0 := step (step mounted StartClick) Opened).
    destruct (ticks_count_down ticks r0 eq_refl)
      as (Ha & Ht & Hc & _); [simpl; lia|].
    set (r1 := run r0 (map Tick ticks)) in *.
    change (run r1 [StopClick e]) with (stopSession e r1).
    unfold stopSession. rewrite Ha.
    unfold handleEndInterview. simpl completed. rewrite Hc, Ht. simpl.
    eexists. split; [reflexivity|]. simpl. split; [done|]. lia.
Qed.

Lemma C5_witness :
  exists report,
    completed (session
      (run mounted [StartClick; Opened; Tick (mkEndEnv false 5000 "");
                    Tick (mkEndEnv false 6000 "");
                    StopClick (mkEndEnv false 7000 "")])) = [report] /\
    durationLimit report = 1500 /\
    startTime report = 7000 - 2 * 1000.
Proof.
  destruct (C5_start_time_is_computed_from_the_countdown
              (mkEndEnv false 7000 "") mounted) as (_ & _ & H).
  apply (H [mkEndEnv false 5000 ""; mkEndEnv false 6000 ""]).
  simpl. lia.
Defined.

(** C6: whichever way teardown begins, one record is handed to
    [onComplete].  An explicit stop of an Open session produces one; the
    countdown produces none while it is above zero and one with the tick
    that brings it to zero; whether [close] throws makes no difference to
    the record; and once [handleEndInterview] has run, no later tick,
    click, message or frame produces another. *)
Theorem C6_teardown_produces_one_record
    (e : EndEnv) (r : Room) :
  phaseOpen r = true ->
  (exists report,
      completed (session (step r (StopClick e))) =
        completed (session r) ++ [report]) /\
  (forall ticks : list EndEnv,
      timeLeft (session r) = Z.of_nat (length ticks) + 1 ->
      completed (session (run r (map Tick ticks))) = completed (session r) /\
      exists report,
        completed (session (run r (map Tick ticks ++ [Tick e]))) =
          completed (session r) ++ [report]) /\
  (forall (now : Z) (url : string),
      completed (session (handleEndInterview (mkEndEnv true now url) r)) =
      completed (session (handleEndInterview (mkEndEnv false now url) r))) /\
  (exists report,
      forall evs : list Event,
        Opened ∉ evs ->
        completed (session (run (handleEndInterview e r) evs)) =
        completed (session r) ++ [report]).
Proof.
  unfold phaseOpen. intros Ha. split_and!.
  - simpl. unfold stopSession. rewrite Ha. eexists. reflexivity.
  - intros ticks Ht.
    destruct (ticks_count_down ticks r Ha) as (Ha' & Ht' & Hc' & _); [lia|].
    split; [exact Hc'|].
    rewrite run_app. simpl.
    destruct (tick_reaches_zero e (run r (map Tick ticks)) Ha') as [Hc _];
      [lia|].
    rewrite Hc, Hc'. eexists. reflexivity.
  - intros now url. reflexivity.
  - eexists. intros evs Hnot. rewrite run_after_teardown; [|done|done].
    reflexivity.
Qed.

Lemma C6_witness :
  exists report,
    completed (session
      (step (run mounted [Opened]) (StopClick (mkEndEnv true 9000 "")))) =
    [report].
Proof.
  destruct (C6_teardown_produces_one_record
              (mkEndEnv true 9000 "") (run mounted [Opened]) eq_refl)
    as (H & _).
  exact H.
Defined.

(** ** Turn assembler *)

Lemma sublist_strongly_sorted (l1 l2 : list Z) :
  l1 `sublist_of` l2 -> StronglySorted Z.le l2 -> StronglySorted Z.le l1.
Proof.
  induction 1 as [|x l1 l2 Hsub IH|x l1 l2 Hsub IH]; intros Hs.
  - constructor.
  - apply StronglySorted_inv in Hs as [Hs Hall]. constructor; [by apply IH|].
    rewrite Forall_forall in Hall |- *. intros y Hy. apply Hall.
    by eapply elem_of_sublist.
  - apply StronglySorted_inv in Hs as [Hs _]. by apply IH.
Qed.

Lemma appendTurn_appends (cand ai : string) (tC tA : Z)
    (prev : list TurnRecord) :
  exists new,
    appendTurn cand ai tC tA prev = prev ++ new /\
    map timestamp new `sublist_of` [tC; tA].
Proof.
  unfold appendTurn.
  destruct (JS.truthy cand), (JS.truthy ai); eexists; (split; [reflexivity|]);
    simpl; repeat constructor.
Qed.

Lemma deltas_keep_transcript (msg : LiveServerMessage) (u : Turns) :
  let u1 := match inputTranscription msg with
            | Some t => inputDelta t u
            | None => u
            end in
  let u2 := match outputTranscription msg with
            | Some t => outputDelta t u1
            | None => u1
            end in
  transcript u2 = transcript u /\ queued u2 = queued u.
Proof.
  destruct (inputTranscription msg), (outputTranscription msg); done.
Qed.

Lemma step_transcript (r : Room) (ev : Event) :
  exists new,
    transcript (turns (step r ev)) = transcript (turns r) ++ new /\
    map timestamp new `sublist_of` readings ev.
Proof.
  assert (Hnone : forall l, exists new : list TurnRecord,
             transcript (turns r) = transcript (turns r) ++ new /\
             map timestamp new `sublist_of` l).
  { intros l. exists []. rewrite app_nil_r. split; [done|].
    apply sublist_nil_l. }
  destruct ev as [ | |e msg|tC tA|source|inputData|e|e| ]; simpl; try apply Hnone.
  - destruct (deltas_keep_transcript msg (turns r)) as [Ht Hq].
    cbv zeta in Ht, Hq.
    set (u2 := match outputTranscription msg with
               | Some t => outputDelta t _ | None => _ end) in *.
    destruct (turnComplete msg); [|rewrite Ht; apply Hnone].
    unfold commitTurn. simpl. rewrite <- Ht.
    destruct (JS.truthy (candidateBuffer u2) || JS.truthy (aiBuffer u2))%bool;
      [|rewrite Ht; apply Hnone].
    unfold setTranscript.
    destruct (eager e && (queued u2 =? 0)%nat)%bool; simpl;
      [|rewrite Ht; apply Hnone].
    apply appendTurn_appends.
  - unfold runUpdater. destruct (queued (turns r)); simpl; [apply Hnone|].
    apply appendTurn_appends.
  - controller_cases; apply Hnone.
  - controller_cases; apply Hnone.
  - controller_cases; apply Hnone.
Qed.

Lemma run_transcript (evs : list Event) (r : Room) :
  exists new,
    transcript (turns (run r evs)) = transcript (turns r) ++ new /\
    map timestamp new `sublist_of` flat_map readings evs.
Proof.
  revert r. induction evs as [|ev evs IH]; intros r; simpl.
  - exists []. by rewrite app_nil_r.
  - destruct (step_transcript r ev) as (new1 & H1 & S1).
    destruct (IH (step r ev)) as (new2 & H2 & S2).
    exists (new1 ++ new2). split.
    + rewrite H2, H1. by rewrite <- app_assoc.
    + rewrite map_app. by apply sublist_app.
Qed.





(** C9, counterexample: two turns are committed, each by a message that
    carries only the turn-complete signal, the first when [Date.now()]
    reads 100 and the second, after the clock of the machine has been set
    back, when it reads 40; the transcript holds the two records in
    append order with the timestamps 100 and 40. *)
Lemma C9_clock_set_back_breaks_chronological_order :
  let log :=
    transcript
      (turns
         (run mounted
            [Message (mkMsgEnv 0%float false 0 0)
                     (deltaMessage (CandidateDelta "Hello"));
             Message (mkMsgEnv 0%float true 100 100) turnCompleteMessage;
             Message (mkMsgEnv 0%float false 0 0)
                     (deltaMessage (CandidateDelta "Thanks"));
             Message (mkMsgEnv 0%float true 40 40) turnCompleteMessage])) in
  log = [mkTurn Candidate "Hello" 100; mkTurn Candidate "Thanks" 40] /\
  ~ Sorted Z.le (map timestamp log).
Proof.
  split; [reflexivity|]. simpl. intros Hsorted.
  apply Sorted_inv in Hsorted as [_ Hhd].
  apply HdRel_inv in Hhd. lia.
Qed.

(** C9, as the code has it: the transcript only grows at its end: every
    event leaves it as it is or appends records after the ones it holds;
    a record that is in the transcript stays at its position unchanged
    through any later events; and as long as the readings of [Date.now()]
    do not go back, the timestamps along the transcript never
    decrease. *)
Theorem C9_transcript_is_append_only (r : Room) (evs : list Event) :
  (forall ev : Event,
      exists new,
        transcript (turns (step r ev)) = transcript (turns r) ++ new) /\
  (forall (i : nat) (record : TurnRecord),
      transcript (turns r) !! i = Some record ->
      transcript (turns (run r evs)) !! i = Some record) /\
  (Sorted Z.le
     (map timestamp (transcript (turns r)) ++ flat_map readings evs) ->
   Sorted Z.le (map timestamp (transcript (turns (run r evs))))).
Proof.
  split_and!.
  - intros ev. destruct (step_transcript r ev) as (new & Hnew & _).
    by exists new.
  - intros i record Hi.
    destruct (run_transcript evs r) as (new & -> & _).
    by apply lookup_app_l_Some.
  - intros Hsorted.
    destruct (run_transcript evs r) as (new & -> & Hsub).
    apply StronglySorted_Sorted.
    apply (sublist_strongly_sorted _
             (map timestamp (transcript (turns r)) ++ flat_map readings evs)).
    + rewrite map_app. by apply sublist_app.
    + apply Sorted_StronglySorted; [|done]. intros x y z. apply Z.le_trans.
Qed.

(** The scenario of the spec with every message rendered before the next
    arrives: the two deltas, then the turn-complete signal in a message
    of its own, with readings that go forward. *)
Lemma C9_witness :
  let log :=
    transcript
      (turns
         (run mounted
            [Message (mkMsgEnv 0%float false 1 2)
                     (deltaMessage (CandidateDelta "Hello"));
             Render 3 4;
             Message (mkMsgEnv 0%float false 5 6)
                     (deltaMessage (AgentDelta "Hi there"));
             Render 7 8;
             Message (mkMsgEnv 0%float true 10 11) turnCompleteMessage;
             Render 12 13])) in
  log = [mkTurn Candidate "Hello" 10; mkTurn AI "Hi there" 11] /\
  Sorted Z.le (map timestamp log).
Proof.
  split; [reflexivity|].
  apply (C9_transcript_is_append_only mounted).
  vm_compute. repeat constructor; discriminate.
Defined.

Lemma string_app_assoc (s1 s2 s3 : string) :
  (s1 +:+ s2) +:+ s3 = s1 +:+ (s2 +:+ s3).
Proof.
  induction s1 as [|a s1 IH]; [done|].
  change (String a ((s1 +:+ s2) +:+ s3) = String a (s1 +:+ (s2 +:+ s3))).
  by rewrite IH.
Qed.

Lemma string_app_nil_r (s : string) : s +:+ "" = s.
Proof.
  induction s as [|a s IH]; [done|].
  change (String a (s +:+ "") = String a s). by rewrite IH.
Qed.

(** The two accumulators collect the deltas of their speaker in arrival
    order, however the deltas of the two speakers interleave. *)
Lemma deltas_accumulate (ds : list (MsgEnv * Delta)) (r : Room) :
  let r' := run r (map deltaEvent ds) in
  candidateBuffer (turns r') =
    candidateBuffer (turns r) +:+ spoken Candidate ds /\
  aiBuffer (turns r') = aiBuffer (turns r) +:+ spoken AI ds /\
  transcript (turns r') = transcript (turns r) /\
  queued (turns r') = queued (turns r).
Proof.
  revert r. induction ds as [|[e d] ds IH]; intros r; simpl.
  - by rewrite !string_app_nil_r.
  - destruct (IH (onmessage e (deltaMessage d) r)) as (Hc & Ha & Ht & Hq).
    rewrite Hc, Ha, Ht, Hq.
    destruct d as [t|t]; simpl; unfold JS.appendText; simpl;
      by rewrite ?string_app_assoc.
Qed.

(** Run while the accumulators still hold the turn, the function passed
    to [setTranscript] appends one record per non-empty accumulator, the
    candidate's first: this is what happens when React computes the update
    during the call. *)
Lemma commit_computed_during_the_call
    (r : Room) (ds : list (MsgEnv * Delta)) (e : MsgEnv) :
  eager e = true -> queued (turns r) = 0%nat ->
  candidateBuffer (turns r) = "" -> aiBuffer (turns r) = "" ->
  transcript
    (turns (run r (map deltaEvent ds ++ [Message e turnCompleteMessage]))) =
  transcript (turns r)
  ++ (if JS.truthy (spoken Candidate ds)
      then [mkTurn Candidate (spoken Candidate ds) (dateNowCandidate e)]
      else [])
  ++ (if JS.truthy (spoken AI ds)
      then [mkTurn AI (spoken AI ds) (dateNowAI e)]
      else []).
Proof.
  intros He Hq Hc Ha. rewrite run_app.
  destruct (deltas_accumulate ds r) as (Hc' & Ha' & Ht' & Hq').
  cbv zeta in *. rewrite Hc in Hc'. rewrite Ha in Ha'.
  change ("" +:+ spoken Candidate ds) with (spoken Candidate ds) in Hc'.
  change ("" +:+ spoken AI ds) with (spoken AI ds) in Ha'.
  set (r1 := run r (map deltaEvent ds)) in *.
  simpl. unfold commitTurn, setTranscript.
  rewrite Hc', Ha', Hq', Hq, He, Ht'. simpl.
  unfold appendTurn.
  destruct (JS.truthy (spoken Candidate ds)), (JS.truthy (spoken AI ds));
    simpl; by rewrite ?app_nil_r.
Qed.

Lemma renders_on_empty_accumulators (renders : list (Z * Z)) (r : Room) :
  candidateBuffer (turns r) = "" -> aiBuffer (turns r) = "" ->
  transcript (turns (run r (map renderEvent renders))) = transcript (turns r).
Proof.
  revert r. induction renders as [|[tC tA] renders IH]; intros r Hc Ha;
    simpl; [done|].
  unfold runUpdater. destruct (queued (turns r)) eqn:Hq.
  - rewrite <- (IH r Hc Ha). by destruct r as [p [] s].
  - rewrite IH; simpl; try done.
    rewrite Hc, Ha. unfold appendTurn. simpl. by rewrite app_nil_r.
Qed.

(** C3, on the code: when React queues the function passed to
    [setTranscript] (the component has an update pending, so the update is
    not computed during the call), the handler has emptied both
    accumulators before the function runs; the renders that follow append
    no record, whatever the accumulators held at the turn-complete
    signal. *)
Theorem C3_queued_update_appends_no_record
    (r : Room) (ds : list (MsgEnv * Delta)) (e : MsgEnv)
    (renders : list (Z * Z)) :
  eager e = false ->
  let r1 := run r (map deltaEvent ds ++ [Message e turnCompleteMessage]) in
  candidateBuffer (turns r1) = "" /\ aiBuffer (turns r1) = "" /\
  transcript (turns r1) = transcript (turns r) /\
  transcript (turns (run r1 (map renderEvent renders))) =
    transcript (turns r).
Proof.
  intros He r1.
  assert (H1 : candidateBuffer (turns r1) = "" /\ aiBuffer (turns r1) = "" /\
               transcript (turns r1) = transcript (turns r)).
  { subst r1. rewrite run_app.
    destruct (deltas_accumulate ds r) as (_ & _ & Ht' & _).
    cbv zeta in Ht'. set (r0 := run r (map deltaEvent ds)) in *.
    simpl. split_and!; try done.
    unfold commitTurn, setTranscript. rewrite He. simpl.
    by destruct (JS.truthy (candidateBuffer (turns r0))
                 || JS.truthy (aiBuffer (turns r0)))%bool. }
  destruct H1 as (Hc & Ha & Ht). split_and!; try done.
  by rewrite renders_on_empty_accumulators.
Qed.

(** The end-to-end scenario of the spec: ["Hello"] from the candidate,
    ["Hi there"] from the agent, the turn-complete signal, a render; with
    the update queued the transcript is still empty. *)
Lemma C3_witness :
  transcript
    (turns
       (run mounted
          [StartClick; Opened;
           Message (mkMsgEnv 0%float false 10 11)
                   (deltaMessage (CandidateDelta "Hello"));
           Message (mkMsgEnv 0%float false 12 13)
                   (deltaMessage (AgentDelta "Hi there"));
           Message (mkMsgEnv 0%float false 14 15) turnCompleteMessage;
           Render 16 17])) = [].
Proof.
  destruct (C3_queued_update_appends_no_record
              (run mounted [StartClick; Opened])
              [(mkMsgEnv 0%float false 10 11, CandidateDelta "Hello");
               (mkMsgEnv 0%float false 12 13, AgentDelta "Hi there")]
              (mkMsgEnv 0%float false 14 15) [(16, 17)] eq_refl)
    as (_ & _ & _ & H).
  exact H.
Defined.

(** ** Playback scheduler *)














(** * Further properties of the component *)

(** A property of the playback state that the three playback operations
    keep holds after every run. *)
Lemma playback_invariant (P : Playback -> Prop) :
  (forall now d p, P p -> P (schedule now d p)) ->
  (forall p, P p -> P (flush p)) ->
  (forall source p, P p -> P (ended source p)) ->
  forall (evs : list Event) (r : Room),
    P (playback r) -> P (playback (run r evs)).
Proof.
  intros Hs Hf He evs.
  induction evs as [|ev evs IH]; intros r Hr; simpl; [done|].
  apply IH. destruct ev; simpl; try done.
  - destruct (interrupted msg), (inlineData msg); auto.
  - by apply He.
  - controller_cases; done.
  - controller_cases; done.
  - controller_cases; done.
Qed.

(** The same for the turn assembler's operations. *)
Lemma turns_invariant (P : Turns -> Prop) :
  (forall t u, P u -> P (inputDelta t u)) ->
  (forall t u, P u -> P (outputDelta t u)) ->
  (forall e u, P u -> P (commitTurn e u)) ->
  (forall tC tA u, P u -> P (runUpdater tC tA u)) ->
  forall (evs : list Event) (r : Room),
    P (turns r) -> P (turns (run r evs)).
Proof.
  intros Hi Ho Hc Hr evs.
  induction evs as [|ev evs IH]; intros r Hinit; simpl; [done|].
  apply IH. destruct ev; simpl; try done.
  - destruct (turnComplete msg), (inputTranscription msg),
      (outputTranscription msg); auto.
  - by apply Hr.
  - controller_cases; done.
  - controller_cases; done.
  - controller_cases; done.
Qed.

(** The audio branch of a handler that nothing interrupts is its two
    halves one after the other. *)
Lemma schedule_split (now d : float) (p : Playback) :
  schedule now d p = finishAudio d (beginAudio now p).
Proof. reflexivity. Qed.

(** The events of [step] are handled in unbroken pieces. *)
Lemma step_playback_ops (r : Room) (ev : Event) :
  playback (step r ev) = foldl playbackOp (playback r) (playbackOps ev) /\
  unbroken (playbackOps ev).
Proof.
  destruct ev; simpl; try (split; [done|repeat constructor]).
  - destruct (inlineData msg), (interrupted msg); simpl;
      split; try done; repeat constructor.
  - split; [by destruct (capturing (session r))|constructor].
  - split; [controller_cases; done|constructor].
  - split; [controller_cases; done|constructor].
Qed.

Lemma unbroken_app (ops ops' : list PlaybackOp) :
  unbroken ops -> unbroken ops' -> unbroken (ops ++ ops').
Proof.
  intros Hops Hops'. induction Hops; simpl; try done; by constructor.
Qed.

Lemma run_playback_ops (evs : list Event) (r : Room) :
  playback (run r evs) =
    foldl playbackOp (playback r) (flat_map playbackOps evs) /\
  unbroken (flat_map playbackOps evs).
Proof.
  revert r. induction evs as [|ev evs IH]; intros r; simpl.
  - split; [done|constructor].
  - destruct (step_playback_ops r ev) as [Hstep Hev].
    destruct (IH (step r ev)) as [Hrun Hevs].
    split; [|by apply unbroken_app].
    by rewrite foldl_app, <- Hstep.
Qed.

(** A property that scheduling a chunk in one piece, a flush and the end
    of a source keep holds after every unbroken sequence. *)
Lemma unbroken_invariant (P : Playback -> Prop) :
  (forall now d p, P p -> P (schedule now d p)) ->
  (forall p, P p -> P (flush p)) ->
  (forall source p, P p -> P (ended source p)) ->
  forall ops : list PlaybackOp,
    unbroken ops -> forall p, P p -> P (foldl playbackOp p ops).
Proof.
  intros Hs Hf He ops Hops.
  induction Hops as [|now d ops _ IH|ops _ IH|source ops _ IH];
    intros p Hp; simpl; [done| | |].
  - apply IH. rewrite <- schedule_split. by apply Hs.
  - apply IH. by apply Hf.
  - apply IH. by apply He.
Qed.

(** X1: as long as every audio branch runs from line 240 to line 255 with
    no other handler in between (each decode resolves before the next
    event is handled), the agent-speaking flag is set exactly when some
    buffer source is in the set of active sources.  The condition is
    needed: an interruption handled while a decode is awaited leaves the
    flag cleared with the new source started and in the set, and a decode
    that rejects leaves the flag set with the set empty. *)
Theorem X1_speaking_flag_follows_the_source_set :
  (forall ops : list PlaybackOp,
      unbroken ops ->
      isAISpeaking (foldl playbackOp silent ops) = true <->
      sources (foldl playbackOp silent ops) <> ∅) /\
  (forall now d : float,
      let p := foldl playbackOp silent [Begin now; Flush; Finish d] in
      isAISpeaking p = false /\ sources p = {[ 0%nat ]} /\
      started p = [mkSource 0 0%float d]) /\
  (forall now : float,
      let p := foldl playbackOp silent [Begin now] in
      isAISpeaking p = true /\ sources p = ∅).
Proof.
  split; [|split].
  - intros ops Hops.
    apply (unbroken_invariant
             (fun p => isAISpeaking p = true <-> sources p <> ∅));
      [| | |exact Hops|].
    + intros now d p _. simpl. split; [|done]. intros _ Hempty.
      apply (not_elem_of_empty (C := gset nat) (created p)).
      rewrite <- Hempty. apply elem_of_union. left.
      by apply elem_of_singleton.
    + intros p _. simpl. split; done.
    + intros source p Hp. unfold ended. simpl.
      destruct (decide (size (sources p ∖ {[source]}) = 0%nat)) as [Hz|Hnz].
      * assert (Hempty : sources p ∖ {[source]} = ∅)
          by (apply leibniz_equiv, size_empty_iff; exact Hz).
        split; [done|]. intros Hne. by destruct Hne.
      * rewrite Hp. split.
        -- intros _ Hempty. apply Hnz. rewrite Hempty. apply size_empty.
        -- intros Hne Hempty. apply Hne. rewrite Hempty.
           apply set_eq. intros x. rewrite elem_of_difference.
           split; [intros [Hx _]|intros Hx]; exfalso; revert Hx;
             apply not_elem_of_empty.
    + simpl. split; done.
  - intros now d. simpl. split; [done|]. split; [|done].
    apply set_eq. intros x. rewrite elem_of_union, elem_of_singleton.
    split; [intros [Hx|Hx]; [done|]|by left].
    exfalso. revert Hx. apply not_elem_of_empty.
  - intros now. simpl. done.
Qed.

Lemma X1_witness :
  isAISpeaking
    (foldl playbackOp silent
       [Begin 0%float; Finish 0.5%float; Begin 0.25%float; Finish 0.5%float;
        Ended 0]) = true <->
  sources
    (foldl playbackOp silent
       [Begin 0%float; Finish 0.5%float; Begin 0.25%float; Finish 0.5%float;
        Ended 0]) <> ∅.
Proof.
  destruct X1_speaking_flag_follows_the_source_set as [H _].
  apply (H [Begin 0%float; Finish 0.5%float; Begin 0.25%float;
            Finish 0.5%float; Ended 0]).
  repeat constructor.
Defined.

(** X2: buffer sources are numbered in the order of their creation and
    each is started exactly once: the log of [start] calls has one entry
    per created source, the entry at position [i] being source [i]; a
    source in the active set, and a source that has been stopped, is one
    that was started. *)
Theorem X2_sources_are_started_once_before_use (evs : list Event) :
  let p := playback (run mounted evs) in
  length (started p) = created p /\
  (forall (i : nat) (c : ScheduledSource),
      started p !! i = Some c -> src c = i) /\
  (forall source : nat, source ∈ sources p -> (source < created p)%nat) /\
  (forall source : nat, source ∈ stopped p -> (source < created p)%nat).
Proof.
  apply (playback_invariant
           (fun p =>
              length (started p) = created p /\
              (forall (i : nat) (c : ScheduledSource),
                  started p !! i = Some c -> src c = i) /\
              (forall source : nat,
                  source ∈ sources p -> (source < created p)%nat) /\
              (forall source : nat,
                  source ∈ stopped p -> (source < created p)%nat))).
  - intros now d p (Hlen & Hsrc & Hact & Hstop). simpl. split_and!.
    + rewrite length_app. simpl. lia.
    + intros i c Hi. apply lookup_app_Some in Hi as [Hi|[Hge Hi]].
      * by apply Hsrc.
      * apply list_lookup_singleton_Some in Hi as [Hi <-]. simpl. lia.
    + intros source Hin. apply elem_of_union in Hin as [Hin|Hin].
      * apply elem_of_singleton in Hin. lia.
      * apply Hact in Hin. lia.
    + intros source Hin. apply Hstop in Hin. lia.
  - intros p (Hlen & Hsrc & Hact & Hstop). simpl.
    split; [done|]. split; [done|]. split.
    + intros source Hin. exfalso. revert Hin. apply not_elem_of_empty.
    + intros source Hin. apply elem_of_union in Hin as [Hin|Hin]; auto.
  - intros source p (Hlen & Hsrc & Hact & Hstop). simpl.
    split; [done|]. split; [done|]. split; [|done].
    intros source' Hin. apply Hact.
    apply elem_of_difference in Hin as [Hin _]. exact Hin.
  - simpl. split; [done|]. split; [done|].
    split; intros source Hin; exfalso; revert Hin; apply not_elem_of_empty.
Qed.

(** X3: as long as every audio branch runs from line 240 to line 255 with
    no other handler in between (each decode resolves before the next
    event is handled), the baseline for the next chunk is either zero
    (nothing scheduled yet, or an interruption has reset it) or the end
    of the chunk that was started last.  The condition is needed: while
    a decode is awaited, and for good when it rejects, the baseline is
    the reading of the clock with nothing started. *)
Theorem X3_baseline_is_zero_or_the_last_end :
  (forall ops : list PlaybackOp,
      unbroken ops ->
      let p := foldl playbackOp silent ops in
      nextStartTime p = 0%float \/
      exists c : ScheduledSource,
        last (started p) = Some c /\
        nextStartTime p = PrimFloat.add (when c) (duration c)) /\
  (let p := foldl playbackOp silent [Begin 1%float] in
   nextStartTime p = 1%float /\ started p = []).
Proof.
  split; [|by split].
  intros ops Hops.
  apply (unbroken_invariant
           (fun p =>
              nextStartTime p = 0%float \/
              exists c : ScheduledSource,
                last (started p) = Some c /\
                nextStartTime p = PrimFloat.add (when c) (duration c)));
    [| | |exact Hops|].
  - intros now d p _. right. eexists. simpl. rewrite last_snoc. done.
  - intros p _. by left.
  - intros source p Hp. exact Hp.
  - by left.
Qed.

Lemma X3_witness :
  let p :=
    foldl playbackOp silent
          [Begin 0%float; Finish 0.5%float; Begin 2%float; Finish 0.25%float;
           Ended 0] in
  nextStartTime p = 0%float \/
  exists c : ScheduledSource,
    last (started p) = Some c /\
    nextStartTime p = PrimFloat.add (when c) (duration c).
Proof.
  destruct X3_baseline_is_zero_or_the_last_end as [H _].
  apply (H [Begin 0%float; Finish 0.5%float; Begin 2%float;
            Finish 0.25%float; Ended 0]).
  repeat constructor.
Defined.

(** X4: in every state the component reaches, the two live captions show
    exactly what the two accumulators hold. *)
Theorem X4_captions_mirror_the_accumulators (evs : list Event) :
  let u := turns (run mounted evs) in
  currentCandidateInput u = candidateBuffer u /\
  currentAIResponse u = aiBuffer u.
Proof.
  apply (turns_invariant
           (fun u => currentCandidateInput u = candidateBuffer u /\
                     currentAIResponse u = aiBuffer u)).
  - intros t u [Hc Ha]. done.
  - intros t u [Hc Ha]. done.
  - intros e u _. done.
  - intros tC tA u Hu. unfold runUpdater. by destruct (queued u).
  - done.
Qed.

Lemma appendTurn_texts (cand ai : string) (tC tA : Z)
    (prev : list TurnRecord) :
  Forall (fun record => JS.truthy (text record) = true) prev ->
  Forall (fun record => JS.truthy (text record) = true)
         (appendTurn cand ai tC tA prev).
Proof.
  intros Hprev. unfold appendTurn.
  destruct (JS.truthy cand) eqn:Hc, (JS.truthy ai) eqn:Ha;
    repeat (apply Forall_app; split); try done;
    by repeat constructor.
Qed.

(** X5: no record of the transcript has an empty text, whether React
    computes the updates during the call or runs them later: an
    accumulator that is empty when the records are built contributes no
    record. *)
Theorem X5_no_record_has_an_empty_text (evs : list Event) :
  Forall (fun record => JS.truthy (text record) = true)
         (transcript (turns (run mounted evs))).
Proof.
  apply (turns_invariant
           (fun u => Forall (fun record => JS.truthy (text record) = true)
                            (transcript u))).
  - intros t u Hu. exact Hu.
  - intros t u Hu. exact Hu.
  - intros e u Hu. unfold commitTurn, setTranscript. simpl.
    destruct (JS.truthy (candidateBuffer u) || JS.truthy (aiBuffer u))%bool;
      [|exact Hu].
    destruct (eager e && (queued u =? 0)%nat)%bool; simpl; [|exact Hu].
    by apply appendTurn_texts.
  - intros tC tA u Hu. unfold runUpdater.
    destruct (queued u); simpl; [exact Hu|]. by apply appendTurn_texts.
  - constructor.
Qed.

(** X6: a turn-complete signal that finds both accumulators empty makes no
    [setTranscript] call at all: the transcript and the queue of pending
    updates are left as they were. *)
Theorem X6_empty_turn_commits_nothing
    (e : MsgEnv) (msg : LiveServerMessage) (r : Room) :
  inputTranscription msg = None -> outputTranscription msg = None ->
  turnComplete msg = true ->
  candidateBuffer (turns r) = "" -> aiBuffer (turns r) = "" ->
  transcript (turns (onmessage e msg r)) = transcript (turns r) /\
  queued (turns (onmessage e msg r)) = queued (turns r).
Proof.
  intros Hi Ho Htc Hc Ha. unfold onmessage. rewrite Hi, Ho, Htc. simpl.
  unfold commitTurn. rewrite Hc, Ha. simpl. done.
Qed.

Lemma X6_witness :
  queued (turns (onmessage (mkMsgEnv 0%float false 1 2) turnCompleteMessage
                           mounted)) = 0%nat.
Proof.
  apply (X6_empty_turn_commits_nothing
           (mkMsgEnv 0%float false 1 2) turnCompleteMessage mounted
           eq_refl eq_refl eq_refl eq_refl eq_refl).
Defined.

(** X7: however the transcription deltas of the two speakers interleave,
    each accumulator grows by the texts of its own speaker's deltas in
    arrival order and is not touched by the other speaker's. *)
Theorem X7_accumulators_collect_their_own_deltas
    (ds : list (MsgEnv * Delta)) (r : Room) :
  candidateBuffer (turns (run r (map deltaEvent ds))) =
    candidateBuffer (turns r) +:+ spoken Candidate ds /\
  aiBuffer (turns (run r (map deltaEvent ds))) =
    aiBuffer (turns r) +:+ spoken AI ds.
Proof.
  destruct (deltas_accumulate ds r) as (Hc & Ha & _). by split.
Qed.

(** ** Frames *)

Lemma run_sent (evs : list Event) (r : Room) :
  sent (session (run r evs)) =
  sent (session r)
  ++ map pcmBlob (capturedFrames (capturing (session r)) evs).
Proof.
  revert r. induction evs as [|ev evs IH]; intros r; simpl.
  - by rewrite app_nil_r.
  - rewrite (IH (step r ev)), step_sent, step_capturing.
    destruct ev; try done.
    destruct (capturing (session r)); simpl; [|done].
    by rewrite <- app_assoc.
Qed.

Lemma capturedFrames_installed (evs : list Event) :
  capturedFrames true evs = framesOf evs.
Proof.
  induction evs as [|ev evs IH]; [done|].
  destruct ev; simpl; try exact IH. by rewrite IH.
Qed.

Lemma capturedFrames_before_open (pre post : list Event) :
  Opened ∉ pre ->
  capturedFrames false (pre ++ post) = capturedFrames false post.
Proof.
  induction pre as [|ev pre IH]; [done|].
  intros [Hev Hpre]%not_elem_of_cons.
  destruct ev; simpl; try (by apply IH). done.
Qed.

(** X8: in a run in which the channel is opened once, what has been
    handed to [sendRealtimeInput] is, in order and without loss or
    repetition, one message for each frame the microphone delivered
    after the opening, the [pcmBlob] of that frame; before the opening
    nothing has been handed over. *)
Theorem X8_one_message_per_captured_frame (pre post : list Event) :
  Opened ∉ pre -> Opened ∉ post ->
  sent (session (run mounted pre)) = [] /\
  sent (session (run mounted (pre ++ Opened :: post))) =
    pcmBlob <$> framesOf post.
Proof.
  intros Hpre Hpost. rewrite !run_sent. simpl. split.
  - rewrite <- (app_nil_r pre).
    by rewrite (capturedFrames_before_open pre [] Hpre).
  - rewrite (capturedFrames_before_open pre (Opened :: post) Hpre). simpl.
    by rewrite capturedFrames_installed.
Qed.

Lemma X8_witness :
  sent (session (run mounted [StartClick; AudioProcess [0.5%float]])) = [] /\
  sent (session
          (run mounted
             ([StartClick; AudioProcess [0.5%float]]
              ++ Opened :: [AudioProcess [0.25%float]; ChannelClosed;
                            AudioProcess [1%float]]))) =
    pcmBlob <$> framesOf [AudioProcess [0.25%float]; ChannelClosed;
                          AudioProcess [1%float]].
Proof.
  apply (X8_one_message_per_captured_frame
           [StartClick; AudioProcess [0.5%float]]
           [AudioProcess [0.25%float]; ChannelClosed; AudioProcess [1%float]]).
  - intros Hin. apply elem_of_cons in Hin as [Hin|Hin]; [discriminate Hin|].
    apply list_elem_of_singleton in Hin. discriminate Hin.
  - intros Hin. apply elem_of_cons in Hin as [Hin|Hin]; [discriminate Hin|].
    apply elem_of_cons in Hin as [Hin|Hin]; [discriminate Hin|].
    apply list_elem_of_singleton in Hin. discriminate Hin.
Defined.

(** X9: the two bytes a frame holds for a sample, read back as a
    little-endian signed 16-bit integer, are the value the [Int16Array]
    stored for it. *)
Theorem X9_frame_bytes_decode_to_the_stored_sample
    (inputData : list float) (i : nat) (sample : float) :
  inputData !! i = Some sample ->
  exists lo hi : Z,
    frameBytes inputData !! (2 * i)%nat = Some lo /\
    frameBytes inputData !! (2 * i + 1)%nat = Some hi /\
    JS.wrap16 (lo + 256 * hi) = convertSample sample.
Proof.
  intros Hi.
  destruct (frameBytes_lookup _ _ _ Hi) as (lo & hi & Hlo & Hhi & Hb).
  destruct (int16Bytes_spec (convertSample sample))
    as (lo' & hi' & Hb' & _ & _ & Hsum).
  rewrite Hb in Hb'. injection Hb' as <- <-.
  exists lo, hi. split_and!; try done.
  rewrite Hsum.
  assert (Hrange : -32768 <= convertSample sample <= 32767)
    by apply wrap16_range.
  apply wrap16_id_iff in Hrange. rewrite <- Hrange at 2.
  unfold JS.wrap16. by rewrite Z.mod_mod.
Qed.

Lemma X9_witness :
  exists lo hi : Z,
    frameBytes [0.5%float; (-1)%float] !! 2%nat = Some lo /\
    frameBytes [0.5%float; (-1)%float] !! 3%nat = Some hi /\
    JS.wrap16 (lo + 256 * hi) = convertSample (-1)%float.
Proof.
  apply (X9_frame_bytes_decode_to_the_stored_sample
           [0.5%float; (-1)%float] 1 (-1)%float eq_refl).
Defined.

(** ** Countdown *)

Lemma step_timeLeft (r : Room) (ev : Event) :
  0 <= timeLeft (session r) ->
  0 <= timeLeft (session (step r ev)) <= timeLeft (session r).
Proof.
  intros Hr. destruct ev; simpl; try lia.
  - destruct (capturing (session r)); simpl; lia.
  - unfold tick, runEffect, countdownEffect.
    destruct (isActive (session r)); simpl;
      [|rewrite andb_false_r; simpl; lia].
    destruct (Z.ltb_spec 0 (timeLeft (session r))); simpl.
    + destruct (Z.ltb_spec 0 (timeLeft (session r) - 1)); simpl; [lia|].
      destruct (timeLeft (session r) - 1 =? 0); simpl; lia.
    + destruct (timeLeft (session r) =? 0); simpl; lia.
  - unfold stopSession. destruct (isActive (session r)); simpl; lia.
Qed.

Lemma run_timeLeft (evs : list Event) (r : Room) :
  0 <= timeLeft (session r) ->
  0 <= timeLeft (session (run r evs)) <= timeLeft (session r).
Proof.
  revert r. induction evs as [|ev evs IH]; intros r Hr; simpl; [lia|].
  pose proof (step_timeLeft r ev Hr) as Hstep.
  specialize (IH (step r ev)). lia.
Qed.

(** X10: the countdown never goes below zero and never goes up again:
    through any events, also a close of the channel followed by a new
    opening, [timeLeft] stays between zero and the value it had. *)
Theorem X10_countdown_is_never_negative_and_never_reset
    (r : Room) (evs : list Event) :
  0 <= timeLeft (session r) ->
  0 <= timeLeft (session (run r evs)) <= timeLeft (session r).
Proof. apply run_timeLeft. Qed.

Lemma X10_witness :
  0 <= timeLeft (session
         (run mounted [StartClick; Opened; Tick (mkEndEnv false 0 "");
                       ChannelClosed; StartClick; Opened]))
    <= 1500.
Proof.
  apply (X10_countdown_is_never_negative_and_never_reset mounted).
  simpl. lia.
Defined.

Lemma step_completed (r : Room) (ev : Event) :
  0 <= timeLeft (session r) <= 1500 ->
  completed (session (step r ev)) = completed (session r) \/
  exists (e : EndEnv) (report : InterviewSession),
    (ev = Tick e \/ ev = StopClick e) /\
    completed (session (step r ev)) = completed (session r) ++ [report] /\
    durationLimit report = 1500 /\
    startTime report =
      dateNow e - (1500 - timeLeft (session (step r ev))) * 1000 /\
    dateNow e - 1500000 <= startTime report <= dateNow e.
Proof.
  intros Hr. destruct ev; simpl; auto.
  - destruct (capturing (session r)); simpl; auto.
  - unfold tick, runEffect, countdownEffect.
    destruct (isActive (session r)); simpl;
      [|rewrite andb_false_r; simpl; auto].
    destruct (Z.ltb_spec 0 (timeLeft (session r))); simpl.
    + destruct (Z.ltb_spec 0 (timeLeft (session r) - 1)); simpl; auto.
      destruct (timeLeft (session r) - 1 =? 0); simpl; auto.
      right. exists e. eexists.
      split; [by left|]. split; [reflexivity|].
      simpl. split; [done|]. split; lia.
    + destruct (timeLeft (session r) =? 0); simpl; auto.
  - unfold stopSession. destruct (isActive (session r)); simpl; auto.
    right. exists e. eexists.
    split; [by right|]. split; [reflexivity|].
    simpl. split; [done|]. split; lia.
Qed.

(** X11: in every state the component reaches, an event hands a record
    to [onComplete] only when it is a tick of the countdown or a click on
    the stop button, and then exactly one: its [durationLimit] is 1500
    and its [startTime] is the reading of [Date.now()] taken in that
    teardown less 1000 ms for every second the countdown has run, which
    lies at most 1 500 000 ms before, and never after, that reading. *)
Theorem X11_reported_start_is_within_the_limit
    (evs : list Event) (ev : Event) :
  let r := run mounted evs in
  completed (session (step r ev)) = completed (session r) \/
  exists (e : EndEnv) (report : InterviewSession),
    (ev = Tick e \/ ev = StopClick e) /\
    completed (session (step r ev)) = completed (session r) ++ [report] /\
    durationLimit report = 1500 /\
    startTime report =
      dateNow e - (1500 - timeLeft (session (step r ev))) * 1000 /\
    dateNow e - 1500000 <= startTime report <= dateNow e.
Proof.
  intros r. apply step_completed.
  apply (run_timeLeft evs mounted). simpl. lia.
Qed.

Lemma step_inactive (r : Room) (ev : Event) :
  ev <> Opened -> isActive (session r) = false ->
  isActive (session (step r ev)) = false /\
  timeLeft (session (step r ev)) = timeLeft (session r).
Proof.
  intros Hev Ha. destruct ev; simpl; try done.
  - destruct (capturing (session r)); simpl; done.
  - unfold tick, countdownEffect. rewrite Ha. simpl.
    rewrite andb_false_r. done.
  - unfold stopSession. rewrite Ha. done.
Qed.

Lemma run_inactive (evs : list Event) (r : Room) :
  Opened ∉ evs -> isActive (session r) = false ->
  isActive (session (run r evs)) = false /\
  timeLeft (session (run r evs)) = timeLeft (session r).
Proof.
  revert r. induction evs as [|ev evs IH]; intros r Hnot Ha; simpl; [done|].
  apply not_elem_of_cons in Hnot as [Hev Hnot].
  destruct (step_inactive r ev (not_eq_sym Hev) Ha) as [Ha' Ht'].
  destruct (IH (step r ev) Hnot Ha') as [Ha'' Ht'']. split; congruence.
Qed.

(** X12: when the channel is closed from the other side, the component
    only leaves its active state: until a channel is opened again the
    countdown stands still, the stop button and the timer do nothing, and
    no record is handed to [onComplete]. *)
Theorem X12_remote_close_produces_no_record
    (r : Room) (evs : list Event) :
  Opened ∉ evs ->
  isActive (session (run (onclose r) evs)) = false /\
  timeLeft (session (run (onclose r) evs)) = timeLeft (session r) /\
  completed (session (run (onclose r) evs)) = completed (session r).
Proof.
  intros Hnot.
  destruct (run_inactive evs (onclose r) Hnot eq_refl) as [Ha Ht].
  split; [done|]. split; [done|].
  by rewrite run_after_teardown.
Qed.

Lemma X12_witness :
  completed (session
    (run (onclose (run mounted [StartClick; Opened]))
         [Tick (mkEndEnv false 1 ""); StopClick (mkEndEnv false 2 "")])) = [].
Proof.
  apply (X12_remote_close_produces_no_record
           (run mounted [StartClick; Opened])
           [Tick (mkEndEnv false 1 ""); StopClick (mkEndEnv false 2 "")]).
  intros Hin. apply elem_of_cons in Hin as [Hin|Hin]; [discriminate Hin|].
  apply list_elem_of_singleton in Hin. discriminate Hin.
Defined.

(** ** The countdown display *)

Lemma string_length_app (s t : string) :
  String.length (s +:+ t) = (String.length s + String.length t)%nat.
Proof.
  induction s as [|a s IH]; [done|].
  change (S (String.length (s +:+ t)) =
          S (String.length s + String.length t)).
  by rewrite IH.
Qed.

Lemma string_app_inj_2 (s1 s2 t1 t2 : string) :
  String.length t1 = String.length t2 ->
  s1 +:+ t1 = s2 +:+ t2 -> s1 = s2 /\ t1 = t2.
Proof.
  revert s2. induction s1 as [|a s1 IH]; intros s2 Hlen Heq.
  - destruct s2 as [|b s2]; [done|].
    change (t1 = String b (s2 +:+ t2)) in Heq.
    assert (Hl : String.length t1 = S (String.length (s2 +:+ t2)))
      by (rewrite Heq; reflexivity).
    rewrite string_length_app in Hl. lia.
  - destruct s2 as [|b s2].
    + change (String a (s1 +:+ t1) = t2) in Heq.
      assert (Hl : S (String.length (s1 +:+ t1)) = String.length t2)
        by (rewrite <- Heq; reflexivity).
      rewrite string_length_app in Hl. lia.
    + change (String a (s1 +:+ t1) = String b (s2 +:+ t2)) in Heq.
      injection Heq as -> Heq.
      destruct (IH s2 Hlen Heq) as [-> ->]. done.
Qed.

Lemma seconds_field_length (n : Z) :
  0 <= n < 60 -> String.length (padStart2 (pretty n)) = 2%nat.
Proof.
  intros Hn.
  assert (Hall : Forall (fun n => String.length (padStart2 (pretty n)) = 2%nat)
                        (seqZ 0 60))
    by (apply (bool_decide_unpack _); vm_compute; reflexivity).
  rewrite Forall_forall in Hall. apply Hall, elem_of_seqZ. lia.
Qed.

Lemma seconds_field_inj (a b : Z) :
  0 <= a < 60 -> 0 <= b < 60 ->
  padStart2 (pretty a) = padStart2 (pretty b) -> a = b.
Proof.
  intros Ha Hb Heq.
  assert (Hnodup : NoDup ((fun n => padStart2 (pretty n)) <$> seqZ 0 60))
    by (apply (bool_decide_unpack _); vm_compute; reflexivity).
  assert (Hlook : forall n, 0 <= n < 60 ->
            ((fun n => padStart2 (pretty n)) <$> seqZ 0 60) !! Z.to_nat n =
            Some (padStart2 (pretty n))).
  { intros n Hn. rewrite list_lookup_fmap, lookup_seqZ_lt by lia.
    replace (0 + Z.of_nat (Z.to_nat n)) with n by lia. done. }
  pose proof (Hlook a Ha) as Hla. pose proof (Hlook b Hb) as Hlb.
  rewrite <- Heq in Hlb.
  pose proof (NoDup_lookup _ _ _ _ Hnodup Hla Hlb) as Hidx. lia.
Qed.

(** X13: for a countdown that is not negative, [formatTime] shows the
    minutes, a colon and the seconds in exactly two characters, and it
    shows different times differently. *)
Theorem X13_formatTime_shows_each_time_differently :
  (forall seconds : Z,
      0 <= seconds ->
      exists field : string,
        formatTime seconds = pretty (seconds `div` 60) +:+ ":" +:+ field /\
        field = padStart2 (pretty (seconds `mod` 60)) /\
        String.length field = 2%nat) /\
  (forall a b : Z,
      0 <= a -> 0 <= b -> formatTime a = formatTime b -> a = b).
Proof.
  assert (Hshape : forall seconds : Z,
             0 <= seconds ->
             formatTime seconds =
             pretty (seconds `div` 60)
             +:+ String ":" (padStart2 (pretty (seconds `mod` 60)))).
  { intros seconds Hs. unfold formatTime. cbv zeta.
    by rewrite Z.rem_mod_nonneg by lia. }
  split.
  - intros seconds Hs. eexists. split; [apply (Hshape _ Hs)|].
    split; [done|]. apply seconds_field_length.
    apply Z.mod_pos_bound. lia.
  - intros a b Ha Hb Heq. rewrite (Hshape a Ha), (Hshape b Hb) in Heq.
    assert (Hma : 0 <= a `mod` 60 < 60) by (apply Z.mod_pos_bound; lia).
    assert (Hmb : 0 <= b `mod` 60 < 60) by (apply Z.mod_pos_bound; lia).
    apply string_app_inj_2 in Heq as [Hmins Hsecs].
    + apply (inj pretty) in Hmins. injection Hsecs as Hsecs.
      apply seconds_field_inj in Hsecs; [|done|done].
      rewrite (Z.div_mod a 60), (Z.div_mod b 60) by lia. congruence.
    + simpl. by rewrite !seconds_field_length.
Qed.

Lemma X13_witness :
  exists field : string,
    formatTime 299 = pretty (299 `div` 60) +:+ ":" +:+ field /\
    field = padStart2 (pretty (299 `mod` 60)) /\
    String.length field = 2%nat.
Proof.
  destruct X13_formatTime_shows_each_time_differently as [H _].
  apply (H 299). lia.
Defined.

(** ** The setup form *)

Lemma trimStart_blank (s : list Z) :
  Setup.trimStart s = [] <->
  Forall (fun c => Setup.isWhiteSpace c = true) s.
Proof.
  induction s as [|c s IH]; simpl; [done|].
  destruct (Setup.isWhiteSpace c) eqn:Hc.
  - rewrite IH. split; [by constructor|]. by intros [_ ?]%Forall_cons.
  - split; [done|]. intros [Hc' _]%Forall_cons. congruence.
Qed.

Lemma trimStart_head (s : list Z) (c : Z) :
  head (Setup.trimStart s) = Some c -> Setup.isWhiteSpace c = false.
Proof.
  induction s as [|c' s IH]; simpl; [done|].
  destruct (Setup.isWhiteSpace c') eqn:Hc; [exact IH|].
  simpl. by intros [= <-].
Qed.

Lemma trimStart_suffix (s : list Z) :
  exists pre : list Z, s = pre ++ Setup.trimStart s.
Proof.
  induction s as [|c s [pre IH]]; simpl; [by exists []|].
  destruct (Setup.isWhiteSpace c).
  - exists (c :: pre). simpl. by rewrite <- IH.
  - by exists [].
Qed.

Lemma trimStart_id (s : list Z) :
  (forall c, head s = Some c -> Setup.isWhiteSpace c = false) ->
  Setup.trimStart s = s.
Proof.
  destruct s as [|c s]; simpl; [done|].
  intros Hc. by rewrite (Hc c eq_refl).
Qed.

Lemma trim_blank (s : list Z) :
  Setup.trim s = [] <-> Forall (fun c => Setup.isWhiteSpace c = true) s.
Proof.
  unfold Setup.trim, Setup.trimEnd. split.
  - intros Hnil.
    assert (Hrev : Setup.trimStart (reverse (Setup.trimStart s)) = []).
    { rewrite <- (reverse_involutive (Setup.trimStart _)), Hnil. done. }
    apply trimStart_blank in Hrev. rewrite Forall_reverse in Hrev.
    apply trimStart_blank.
    destruct (Setup.trimStart s) as [|c rest] eqn:Hs; [done|].
    apply Forall_cons in Hrev as [Hc _].
    pose proof (trimStart_head s c) as Hhead. rewrite Hs in Hhead.
    specialize (Hhead eq_refl). congruence.
  - intros Hall. apply trimStart_blank in Hall. by rewrite Hall.
Qed.

Lemma trim_elem_of (s : list Z) (c : Z) : c ∈ Setup.trim s -> c ∈ s.
Proof.
  unfold Setup.trim, Setup.trimEnd. intros Hin.
  rewrite elem_of_reverse in Hin.
  destruct (trimStart_suffix (reverse (Setup.trimStart s))) as [pre1 H1].
  destruct (trimStart_suffix s) as [pre2 H2].
  assert (Hrev : c ∈ reverse (Setup.trimStart s))
    by (rewrite H1; apply elem_of_app; by right).
  rewrite elem_of_reverse in Hrev.
  assert (Happ : c ∈ pre2 ++ Setup.trimStart s)
    by (apply elem_of_app; by right).
  by rewrite <- H2 in Happ.
Qed.

Lemma trim_ends (s : list Z) :
  (forall c, head (Setup.trim s) = Some c -> Setup.isWhiteSpace c = false) /\
  (forall c, last (Setup.trim s) = Some c -> Setup.isWhiteSpace c = false).
Proof.
  unfold Setup.trim, Setup.trimEnd. split; intros c Hc.
  - destruct (trimStart_suffix (reverse (Setup.trimStart s))) as [pre Hpre].
    apply (f_equal reverse) in Hpre.
    rewrite reverse_involutive, reverse_app in Hpre.
    apply (trimStart_head s c). rewrite Hpre.
    apply head_app_Some. by left.
  - rewrite last_reverse in Hc. by apply trimStart_head in Hc.
Qed.

Lemma trim_entry (w : list Z) : Setup.entry w -> Setup.trim w = w.
Proof.
  intros (_ & _ & Hhead & Hlast). unfold Setup.trim, Setup.trimEnd.
  rewrite (trimStart_id w Hhead), trimStart_id.
  - apply reverse_involutive.
  - intros c Hc. rewrite head_reverse in Hc. by apply Hlast.
Qed.

Lemma split_not_nil (sep : Z) (s : list Z) : Setup.split sep s <> [].
Proof.
  destruct s as [|c s]; simpl; [done|].
  destruct (c =? sep); [done|]. by destruct (Setup.split sep s).
Qed.

Lemma split_no_sep (sep : Z) (s w : list Z) :
  w ∈ Setup.split sep s -> sep ∉ w.
Proof.
  revert w. induction s as [|c s IH]; intros w; simpl.
  - intros ->%list_elem_of_singleton. apply not_elem_of_nil.
  - destruct (Z.eqb_spec c sep) as [->|Hne].
    + intros [->|Hin]%elem_of_cons; [apply not_elem_of_nil|by apply IH].
    + destruct (Setup.split sep s) as [|w0 ws] eqn:Hs.
      * intros ->%list_elem_of_singleton.
        intros [?|Hin]%elem_of_cons; [done|].
        by apply not_elem_of_nil in Hin.
      * intros [->|Hin]%elem_of_cons.
        -- intros [?|Hin]%elem_of_cons; [done|].
           revert Hin. apply IH. apply list_elem_of_here.
        -- apply IH. by apply list_elem_of_further.
Qed.

Lemma split_at_sep (sep : Z) (w rest : list Z) :
  sep ∉ w ->
  Setup.split sep (w ++ sep :: rest) = w :: Setup.split sep rest.
Proof.
  induction w as [|c w IH]; intros Hw; simpl.
  - by rewrite Z.eqb_refl.
  - apply not_elem_of_cons in Hw as [Hc Hw].
    destruct (Z.eqb_spec c sep) as [->|_]; [done|]. by rewrite (IH Hw).
Qed.

Lemma split_without_sep (sep : Z) (w : list Z) :
  sep ∉ w -> Setup.split sep w = [w].
Proof.
  induction w as [|c w IH]; intros Hw; simpl; [done|].
  apply not_elem_of_cons in Hw as [Hc Hw].
  destruct (Z.eqb_spec c sep) as [->|_]; [done|]. by rewrite (IH Hw).
Qed.

Lemma commaList_after_space (s : list Z) :
  Setup.commaList (32 :: s) = Setup.commaList s.
Proof.
  unfold Setup.commaList. simpl.
  destruct (Setup.split 44 s) as [|w ws] eqn:Hs.
  - by destruct (split_not_nil 44 s).
  - simpl. done.
Qed.

(** X14: the form is submitted only when the resume text has something
    other than white space in it; [onStart] then receives the text exactly
    as it was typed, untrimmed. *)
Theorem X14_blank_resume_is_not_submitted
    (resumeText skillsField projectsField : list Z) :
  (Setup.handleSubmit resumeText skillsField projectsField = None <->
   Forall (fun c => Setup.isWhiteSpace c = true) resumeText) /\
  (forall data : Setup.ResumeData,
      Setup.handleSubmit resumeText skillsField projectsField = Some data ->
      Setup.text data = resumeText).
Proof.
  unfold Setup.handleSubmit. rewrite <- trim_blank.
  destruct (Setup.trim resumeText) as [|c rest]; simpl.
  - split; [done|]. done.
  - split; [done|]. by intros data [= <-].
Qed.

Lemma commaList_entries (field w : list Z) :
  w ∈ Setup.commaList field -> Setup.entry w.
Proof.
  unfold Setup.commaList. intros [Htruthy Hin]%list_elem_of_filter.
  apply list_elem_of_fmap in Hin as (w0 & -> & Hin).
  split_and!.
  - intros Hnil. by rewrite Hnil in Htruthy.
  - intros Hcomma. apply trim_elem_of in Hcomma.
    by apply (split_no_sep 44 field w0).
  - apply trim_ends.
  - apply trim_ends.
Qed.

Lemma commaList_join (items : list (list Z)) :
  Forall Setup.entry items ->
  Setup.commaList (Setup.join [44; 32] items) = items.
Proof.
  induction items as [|w items IH]; intros Hall; [done|].
  apply Forall_cons in Hall as [Hw Hall]. specialize (IH Hall).
  assert (Hcomma : 44 ∉ w) by apply Hw.
  assert (Htruthy : Setup.truthy w = true).
  { destruct w; [by destruct Hw as [? _]|done]. }
  destruct items as [|w' items].
  - simpl. unfold Setup.commaList.
    rewrite (split_without_sep 44 w Hcomma). simpl.
    rewrite (trim_entry w Hw), filter_cons_True by done. done.
  - change (Setup.join [44; 32] (w :: w' :: items))
      with (w ++ 44 :: 32 :: Setup.join [44; 32] (w' :: items)).
    unfold Setup.commaList. rewrite (split_at_sep 44 w _ Hcomma).
    rewrite fmap_cons, (trim_entry w Hw), filter_cons_True by done.
    f_equal. fold (Setup.commaList (32 :: Setup.join [44; 32] (w' :: items))).
    by rewrite commaList_after_space.
Qed.

(** X15: every skill and every project that [onStart] receives is not
    empty, contains no comma and neither begins nor ends with white
    space. *)
Theorem X15_list_entries_are_trimmed_and_not_empty
    (resumeText skillsField projectsField : list Z)
    (data : Setup.ResumeData) :
  Setup.handleSubmit resumeText skillsField projectsField = Some data ->
  Forall Setup.entry (Setup.skills data) /\
  Forall Setup.entry (Setup.projects data).
Proof.
  unfold Setup.handleSubmit.
  destruct (Setup.truthy (Setup.trim resumeText)); [|done].
  intros [= <-]. simpl.
  split; apply Forall_forall; intros w Hw; by eapply commaList_entries.
Qed.

Lemma X15_witness :
  Forall Setup.entry [[97]; [98; 32; 99]].
Proof.
  apply (X15_list_entries_are_trimmed_and_not_empty
           [120] [32; 97; 44; 32; 98; 32; 99; 32; 44; 44] []
           (Setup.mkResume [120] [[97]; [98; 32; 99]] []) eq_refl).
Defined.

(** X16: the skills that the form submitted are recovered from the line
    the interview room writes into the system instruction: joined with
    [", "] and split again the way the form splits, they are the same
    skills in the same order. *)
Theorem X16_submitted_skills_survive_the_prompt_line
    (resumeText skillsField projectsField : list Z)
    (data : Setup.ResumeData) :
  Setup.handleSubmit resumeText skillsField projectsField = Some data ->
  Setup.commaList (Setup.skillsLine data) = Setup.skills data.
Proof.
  unfold Setup.handleSubmit.
  destruct (Setup.truthy (Setup.trim resumeText)); [|done].
  intros [= <-]. unfold Setup.skillsLine. simpl.
  apply commaList_join, Forall_forall. intros w Hw.
  by eapply commaList_entries.
Qed.

Lemma X16_witness :
  Setup.commaList
    (Setup.skillsLine (Setup.mkResume [120] [[97]; [98; 32; 99]] [])) =
  [[97]; [98; 32; 99]].
Proof.
  apply (X16_submitted_skills_survive_the_prompt_line
           [120] [32; 97; 44; 32; 98; 32; 99; 32; 44; 44] []
           (Setup.mkResume [120] [[97]; [98; 32; 99]] []) eq_refl).
Defined.

(** ** The application shell *)

Lemma appStep_keeps_a_view (a : App) (ev : AppEvent) :
  (currentState a = INTERVIEWING -> resumeData a <> None) /\
  (currentState a = REVIEW -> lastSession a <> None) ->
  (currentState (appStep a ev) = INTERVIEWING ->
   resumeData (appStep a ev) <> None) /\
  (currentState (appStep a ev) = REVIEW ->
   lastSession (appStep a ev) <> None).
Proof. intros [Hi Hr]. destruct ev; simpl; split; done. Qed.

Lemma appRun_keeps_a_view (evs : list AppEvent) (a : App) :
  (currentState a = INTERVIEWING -> resumeData a <> None) /\
  (currentState a = REVIEW -> lastSession a <> None) ->
  (currentState (appRun a evs) = INTERVIEWING ->
   resumeData (appRun a evs) <> None) /\
  (currentState (appRun a evs) = REVIEW ->
   lastSession (appRun a evs) <> None).
Proof.
  revert a. induction evs as [|ev evs IH]; intros a Ha; simpl; [done|].
  by apply IH, appStep_keeps_a_view.
Qed.

(** X17: after any sequence of [onStart], [onComplete] and [onReset]
    calls the page shows exactly one of its three views, the one of the
    current state: the data that the interview room or the report needs
    is never missing. *)
Theorem X17_exactly_one_view_is_rendered (evs : list AppEvent) :
  let a := appRun initialApp evs in
  match currentState a with
  | SETUP => mainContent a = [SetupViewOf]
  | INTERVIEWING =>
      exists data, resumeData a = Some data /\
                   mainContent a = [InterviewRoomOf data]
  | REVIEW =>
      exists s, lastSession a = Some s /\ mainContent a = [ReviewViewOf s]
  end.
Proof.
  intros a.
  destruct (appRun_keeps_a_view evs initialApp) as [Hi Hr]; [done|].
  fold a in Hi, Hr. unfold mainContent.
  destruct (currentState a) eqn:Hstate.
  - done.
  - destruct (resumeData a) as [data|]; [|by destruct Hi].
    by exists data.
  - destruct (lastSession a) as [s|]; [|by destruct Hr].
    by exists s.
Qed.

(** ** The scores of the report *)

Lemma clamp_between (lo x : float) :
  PrimFloat.classify lo = PNormal ->
  PrimFloat.is_nan lo = false ->
  PrimFloat.ltb lo 10%float = true ->
  let score := mathMin 10%float (JS.mathMax lo x) in
  (PrimFloat.is_nan x = true /\ score = PrimFloat.nan) \/
  score = lo \/ score = 10%float \/
  (score = x /\ PrimFloat.ltb lo x = true /\ PrimFloat.ltb x 10%float = true).
Proof.
  intros Hclass Hlo Hlt score. subst score.
  unfold JS.mathMax. rewrite Hlo, Hclass. simpl.
  destruct (PrimFloat.is_nan x) eqn:Hx.
  - left. split; [done|]. reflexivity.
  - right.
    assert (Hmax : (match PrimFloat.classify x with
                    | PZero | _ => if PrimFloat.ltb lo x then x else lo
                    end) = if PrimFloat.ltb lo x then x else lo)
      by (by destruct (PrimFloat.classify x)).
    rewrite Hmax. unfold mathMin.
    change (PrimFloat.is_nan 10%float) with false.
    change (PrimFloat.classify 10%float) with PNormal.
    destruct (PrimFloat.ltb lo x) eqn:Hlox.
    + rewrite Hx. simpl.
      destruct (PrimFloat.ltb x 10%float) eqn:Hx10.
      * right. right. by destruct (PrimFloat.classify x).
      * right. left. by destruct (PrimFloat.classify x).
    + rewrite Hlo, Hlt. simpl. left. by rewrite Hclass.
Qed.

(** X18: the three scores of the report stay on the scale of ten
    whatever [Math.random()] returns and however long the answers were:
    the technical-depth score is 2, 10 or the clamped value when that lies
    strictly between them, the communication score likewise from 3, and
    the clarity score is 10 or a value below 10; a score is NaN only when
    the clamped value is. *)
Theorem X18_scores_stay_on_the_scale
    (transcript : list TurnRecord) (random1 random2 random3 : float) :
  let depth := technicalDepth transcript random1 in
  let talk := communication transcript random2 in
  let clear := clarity random3 in
  ((PrimFloat.is_nan (technicalRaw transcript random1) = true /\
    depth = PrimFloat.nan) \/
   depth = 2%float \/ depth = 10%float \/
   (PrimFloat.ltb 2%float depth = true /\
    PrimFloat.ltb depth 10%float = true)) /\
  ((PrimFloat.is_nan (communicationRaw transcript random2) = true /\
    talk = PrimFloat.nan) \/
   talk = 3%float \/ talk = 10%float \/
   (PrimFloat.ltb 3%float talk = true /\
    PrimFloat.ltb talk 10%float = true)) /\
  ((PrimFloat.is_nan (clarityRaw random3) = true /\ clear = PrimFloat.nan) \/
   clear = 10%float \/ PrimFloat.ltb clear 10%float = true).
Proof.
  intros depth talk clear. split_and!.
  - destruct (clamp_between 2%float (technicalRaw transcript random1)
                eq_refl eq_refl eq_refl)
      as [H|[H|[H|(H & Hlo & Hhi)]]]; auto.
    right. right. right. subst depth. unfold technicalDepth.
    by rewrite H.
  - destruct (clamp_between 3%float (communicationRaw transcript random2)
                eq_refl eq_refl eq_refl)
      as [H|[H|[H|(H & Hlo & Hhi)]]]; auto.
    right. right. right. subst talk. unfold communication.
    by rewrite H.
  - subst clear. unfold clarity, mathMin.
    change (PrimFloat.is_nan 10%float) with false.
    change (PrimFloat.classify 10%float) with PNormal.
    destruct (PrimFloat.is_nan (clarityRaw random3)) eqn:Hn; simpl.
    + left. done.
    + right.
      destruct (PrimFloat.ltb (clarityRaw random3) 10%float) eqn:Hlt.
      * right. by destruct (PrimFloat.classify (clarityRaw random3)).
      * left. by destruct (PrimFloat.classify (clarityRaw random3)).
Qed.

(** ** A turn committed during the call *)

(** X19: when React computes the update during the [setTranscript] call,
    a turn-complete signal that follows any interleaving of deltas into
    empty accumulators appends one record per non-empty accumulator: the
    candidate's before the agent's, each with the concatenated deltas of
    its speaker as text and its own reading of [Date.now()]. *)
Theorem X19_commit_during_the_call_appends_the_turn
    (r : Room) (ds : list (MsgEnv * Delta)) (e : MsgEnv) :
  eager e = true -> queued (turns r) = 0%nat ->
  candidateBuffer (turns r) = "" -> aiBuffer (turns r) = "" ->
  exists new : list TurnRecord,
    transcript
      (turns (run r (map deltaEvent ds ++ [Message e turnCompleteMessage])))
    = transcript (turns r) ++ new /\
    new =
      (if JS.truthy (spoken Candidate ds)
       then [mkTurn Candidate (spoken Candidate ds) (dateNowCandidate e)]
       else [])
      ++ (if JS.truthy (spoken AI ds)
          then [mkTurn AI (spoken AI ds) (dateNowAI e)]
          else []) /\
    length new =
      ((if JS.truthy (spoken Candidate ds) then 1 else 0)
       + (if JS.truthy (spoken AI ds) then 1 else 0))%nat.
Proof.
  intros He Hq Hc Ha. eexists. split; [|split; [reflexivity|]].
  - by apply commit_computed_during_the_call.
  - by destruct (JS.truthy (spoken Candidate ds)),
         (JS.truthy (spoken AI ds)).
Qed.

Lemma X19_witness :
  transcript
    (turns
       (run mounted
          [Message (mkMsgEnv 0%float true 10 11)
                   (deltaMessage (CandidateDelta "Hel"));
           Message (mkMsgEnv 0%float true 12 13)
                   (deltaMessage (AgentDelta "Hi there"));
           Message (mkMsgEnv 0%float true 14 15)
                   (deltaMessage (CandidateDelta "lo"));
           Message (mkMsgEnv 0%float true 16 17) turnCompleteMessage])) =
  [mkTurn Candidate "Hello" 16; mkTurn AI "Hi there" 17].
Proof.
  destruct (X19_commit_during_the_call_appends_the_turn
              mounted
              [(mkMsgEnv 0%float true 10 11, CandidateDelta "Hel");
               (mkMsgEnv 0%float true 12 13, AgentDelta "Hi there");
               (mkMsgEnv 0%float true 14 15, CandidateDelta "lo")]
              (mkMsgEnv 0%float true 16 17)
              eq_refl eq_refl eq_refl eq_refl) as (new & Hrun & Hnew & _).
  rewrite Hnew in Hrun. exact Hrun.
Defined.
